(** * pyshelly: the Shelly1 relay controller and its oscillation modes

    A shallow embedding of [src/shelly/shelly.py].  Python code that talks to
    the device, sleeps, reads the clock, touches the two shared fields of the
    controller or starts threads is written in a small resumption monad
    [prog]; threads are interleaved by an explicit scheduler. *)

From Stdlib Require Import ZArith QArith String List Lia Lqa FunctionalExtensionality.
From stdpp Require Import base option list gmap strings.

Set Warnings "-register-all".

Local Open Scope string_scope.
Local Open Scope list_scope.
Local Open Scope Z_scope.

(** ** Python values and exceptions *)

(** The values the public methods receive.  [type(x) == int] is false on a
    [bool], so booleans are a constructor of their own.  A finite float is
    its rational value. *)
Inductive pyval : Type :=
| PyNone
| PyBool (b : bool)
| PyInt (z : Z)
| PyFloat (q : Q)
| PyStr (s : string)
| PyThread (t : nat).

Inductive exn : Type :=
| AssertionError
| TypeError
| KeyError
| IndexError
| ValueError
| OverflowError
| RequestError.

(** class RelayState(Enum): ON = True, OFF = False *)
Inductive RelayState : Type := ON | OFF.

Definition value (s : RelayState) : bool :=
  match s with ON => true | OFF => false end.

(** What [.json()] yields. *)
Inductive json : Type :=
| JNull
| JBool (b : bool)
| JNum (q : Q)
| JStr (s : string)
| JList (l : list json)
| JDict (d : gmap string json).

Definition json_truthy (j : json) : bool :=
  match j with
  | JNull => false
  | JBool b => b
  | JNum q => negb (Qeq_bool q 0)
  | JStr s => negb (String.eqb s EmptyString)
  | JList l => negb (Nat.eqb (length l) 0)
  | JDict d => negb (Nat.eqb (size d) 0)
  end.

Definition type_is_int (v : pyval) : bool :=
  match v with PyInt _ => true | _ => false end.

Definition type_is_bool (v : pyval) : bool :=
  match v with PyBool _ => true | _ => false end.

Definition type_in_int_float (v : pyval) : bool :=
  match v with PyInt _ | PyFloat _ => true | _ => false end.

(** Numeric value of a Python number ([bool] is a subclass of [int]). *)
Definition py_num (v : pyval) : option Q :=
  match v with
  | PyBool b => Some (if b then 1%Q else 0%Q)
  | PyInt z => Some (inject_Z z)
  | PyFloat q => Some q
  | _ => None
  end.

Definition Qlt_bool (x y : Q) : bool := negb (Qle_bool y x).

Definition truthy (v : pyval) : bool :=
  match v with
  | PyNone => false
  | PyBool b => b
  | PyInt z => negb (z =? 0)
  | PyFloat q => negb (Qeq_bool q 0)
  | PyStr s => negb (String.eqb s EmptyString)
  | PyThread _ => true
  end.

(** Python's [a != b]: numbers compare by value, the rest by kind. *)
Definition py_ne (a b : pyval) : bool :=
  match py_num a, py_num b with
  | Some x, Some y => negb (Qeq_bool x y)
  | Some _, None | None, Some _ => true
  | None, None =>
      match a, b with
      | PyNone, PyNone => false
      | PyStr s, PyStr t => negb (String.eqb s t)
      | PyThread s, PyThread t => negb (Nat.eqb s t)
      | _, _ => true
      end
  end.

(** ** Programs *)

(** requests.get(self.shelly_base_url + path, timeout=self.http_timeout) *)
Inductive request : Type :=
| GetStatus
| GetRelay (relay_id : pyval) (url_state : string).

(** What a [threading.Thread] is given as [target].  The watcher is a
    closure: it captures [relay_id] of the enclosing call. *)
Inductive target : Type :=
| Tgt_oscillate
| Tgt_oscillate_cycles
| Tgt_stop_oscillation_in (relay_id : pyval).

Inductive prog (R : Type) : Type :=
| Ret (r : R)
| Raise (e : exn)
| Request (rq : request) (k : json → prog R)
| Sleep (d : Q) (k : prog R)
| Now (k : Q → prog R)
| GetStop (k : bool → prog R)
| SetStop (b : bool) (k : prog R)
| GetOsc (k : Q → prog R)
| SetOsc (q : Q) (k : prog R)
| Start (tg : target) (args : list pyval) (kwargs : list (string * pyval))
        (k : nat → prog R)
| Join (t : nat) (k : prog R)
| While (c : prog bool) (b : prog unit) (k : prog R).

Arguments Ret {R} r.
Arguments Raise {R} e.
Arguments Request {R} rq k.
Arguments Sleep {R} d k.
Arguments Now {R} k.
Arguments GetStop {R} k.
Arguments SetStop {R} b k.
Arguments GetOsc {R} k.
Arguments SetOsc {R} q k.
Arguments Start {R} tg args kwargs k.
Arguments Join {R} t k.
Arguments While {R} c b k.

Fixpoint prog_bind {A B : Type} (f : A → prog B) (p : prog A) : prog B :=
  match p with
  | Ret r => f r
  | Raise e => Raise e
  | Request rq k => Request rq (λ j, prog_bind f (k j))
  | Sleep d k => Sleep d (prog_bind f k)
  | Now k => Now (λ t, prog_bind f (k t))
  | GetStop k => GetStop (λ s, prog_bind f (k s))
  | SetStop b k => SetStop b (prog_bind f k)
  | GetOsc k => GetOsc (λ o, prog_bind f (k o))
  | SetOsc q k => SetOsc q (prog_bind f k)
  | Start tg args kwargs k => Start tg args kwargs (λ t, prog_bind f (k t))
  | Join t k => Join t (prog_bind f k)
  | While c b k => While c b (prog_bind f k)
  end.

#[global] Instance prog_ret : MRet prog := λ _ r, Ret r.
#[global] Instance prog_mbind : MBind prog := λ _ _ f p, prog_bind f p.

Definition lift {R : Type} (r : exn + R) : prog R :=
  match r with inl e => Raise e | inr v => Ret v end.

Definition assert_ (b : bool) : prog unit :=
  if b then Ret tt else Raise AssertionError.

Definition get_stop : prog bool := GetStop Ret.
Definition set_stop (b : bool) : prog unit := SetStop b (Ret tt).
Definition get_osc : prog Q := GetOsc Ret.
Definition set_osc (q : Q) : prog unit := SetOsc q (Ret tt).
Definition now : prog Q := Now Ret.
Definition join (t : nat) : prog unit := Join t (Ret tt).

(** A Python number where one is needed; anything else is a TypeError. *)
Definition num (v : pyval) : prog Q :=
  match py_num v with Some q => Ret q | None => Raise TypeError end.

(** time.sleep keeps its duration as a signed 64-bit count of nanoseconds:
    a number of seconds beyond that range is an OverflowError, raised before
    the sign is looked at. *)
Definition sleep_max : Q := 9223372036854775807 # 1000000000.
Definition sleep_min : Q := (-9223372036854775808) # 1000000000.

(** time.sleep(d) *)
Definition sleep (d : pyval) : prog unit :=
  q ← num d;
  if Qlt_bool sleep_max q || Qlt_bool q sleep_min then Raise OverflowError
  else if Qlt_bool q 0 then Raise ValueError
  else Sleep q (Ret tt).

(** float(v), as the arithmetic of a float with an int does it: an int
    that rounds beyond the largest double is an OverflowError.  Up to 2^53
    the conversion is exact. *)
Definition float_max_int : Z := 2 ^ 1024 - 2 ^ 970.

Definition to_float (v : pyval) : prog Q :=
  match v with
  | PyInt z =>
      if Z.abs z <? float_max_int then Ret (inject_Z z)
      else Raise OverflowError
  | _ => num v
  end.

(** ** Subscripts and len on decoded JSON *)

(** j[key] *)
Definition getitem_key (j : json) (key : string) : exn + json :=
  match j with
  | JDict d => match d !! key with Some v => inr v | None => inl KeyError end
  | _ => inl TypeError
  end.

Definition list_index {A : Type} (l : list A) (z : Z) : exn + A :=
  let n := Z.of_nat (length l) in
  let i := if z <? 0 then z + n else z in
  if (0 <=? i) && (i <? n)
  then match l !! Z.to_nat i with Some x => inr x | None => inl IndexError end
  else inl IndexError.

Definition index_of (i : pyval) : option Z :=
  match i with
  | PyInt z => Some z
  | PyBool b => Some (if b then 1 else 0)
  | _ => None
  end.

(** j[i] *)
Definition getitem_idx (j : json) (i : pyval) : exn + json :=
  match j with
  | JList l =>
      match index_of i with
      | Some z => list_index l z
      | None => inl TypeError
      end
  | JStr s =>
      match index_of i with
      | Some z =>
          match list_index (list_ascii_of_string s) z with
          | inr c => inr (JStr (String c EmptyString))
          | inl e => inl e
          end
      | None => inl TypeError
      end
  | JDict _ => inl KeyError
  | _ => inl TypeError
  end.

(** len(j) *)
Definition len (j : json) : exn + nat :=
  match j with
  | JList l => inr (length l)
  | JStr s => inr (String.length s)
  | JDict d => inr (size d)
  | _ => inl TypeError
  end.

(** ** The controller object *)

Record Shelly1 : Type := {
  host : string;
  http_timeout : Z;
  shelly_base_url : string;
  _stop_oscillation : bool;
  _oscillations : Q }.

(** Shelly1.__init__(host=None, http_timeout=1) *)
Definition init (host_arg : option string) (http_timeout_arg : Z) : Shelly1 :=
  let h := match host_arg with
           | Some s => if String.eqb s EmptyString then "192.168.33.1" else s
           | None => "192.168.33.1"
           end in
  {| host := h;
     http_timeout := http_timeout_arg;
     shelly_base_url := ("http://" ++ h)%string;
     _stop_oscillation := true;
     _oscillations := 0%Q |}.

(** ** The methods *)

Definition status : prog json := Request GetStatus Ret.

Definition relay_state_of (ison : json) : RelayState :=
  if json_truthy ison then ON else OFF.

(** The body of get_relays once the status document is in hand:
    [for i in range(len(s)): relays.append((i, ...))]. *)
Fixpoint collect_relays (s : json) (i : Z) (n : nat)
    (relays : list (Z * RelayState)) : prog (list (Z * RelayState)) :=
  match n with
  | O => Ret relays
  | S n' =>
      e ← lift (getitem_idx s (PyInt i));
      ison ← lift (getitem_key e "ison");
      collect_relays s (i + 1) n' (relays ++ [(i, relay_state_of ison)])
  end.

Definition relays_of_status (doc : json) : prog (list (Z * RelayState)) :=
  s ← lift (getitem_key doc "relays");
  n ← lift (len s);
  collect_relays s 0 n [].

Definition get_relays : prog (list (Z * RelayState)) :=
  doc ← status;
  relays_of_status doc.

Definition get_relay_state (relay_id : pyval) : prog RelayState :=
  assert_ (type_is_int relay_id);;
  doc ← status;
  s ← lift (getitem_key doc "relays");
  e ← lift (getitem_idx s relay_id);
  ison ← lift (getitem_key e "ison");
  Ret (relay_state_of ison).

Definition power (relay_id state : pyval) : prog RelayState :=
  assert_ (type_is_int relay_id);;
  assert_ (type_is_bool state);;
  let url_state := if truthy state then "on" else "off" in
  r ← Request (GetRelay relay_id url_state) Ret;
  ison ← lift (getitem_key r "ison");
  Ret (relay_state_of ison).

Definition toggle (relay_id : pyval) : prog RelayState :=
  assert_ (type_is_int relay_id);;
  st ← get_relay_state relay_id;
  match st with
  | ON => power relay_id (PyBool false)
  | OFF => power relay_id (PyBool true)
  end.

(** assert period >= 0.05.  On floats the comparison with the double
    nearest to 0.05 agrees with the comparison with 1/20: that double is the
    least one above 1/20. *)
Definition period_ok (period : pyval) : prog bool :=
  q ← num period;
  Ret (Qle_bool (1 # 20) q).

Definition positive (v : pyval) : prog bool :=
  q ← num v;
  Ret (Qlt_bool 0 q).

(** One round of the loop of [oscillate]. *)
Definition oscillate_body (relay_id period : pyval) : prog unit :=
  toggle relay_id;;
  o ← get_osc;
  set_osc (o + 1);;
  sleep period.

Definition not_stopped : prog bool :=
  s ← get_stop;
  Ret (negb s).

Definition oscillate (relay_id period block : pyval) : prog pyval :=
  assert_ (type_is_int relay_id);;
  assert_ (type_in_int_float period);;
  (ok ← period_ok period; assert_ ok);;
  assert_ (type_is_bool block);;
  if truthy block then
    set_stop false;;
    set_osc 0;;
    While not_stopped (oscillate_body relay_id period) (Ret PyNone)
  else
    t ← Start Tgt_oscillate [relay_id; period] [] Ret;
    Ret (PyThread t).

(** if self.get_relay_state(relay_id).value != wanted: self.power(...) *)
Definition enforce (relay_id wanted : pyval) (settle : prog unit) : prog unit :=
  st ← get_relay_state relay_id;
  if py_ne (PyBool (value st)) wanted
  then power relay_id wanted;; settle
  else Ret tt.

(** datetime.now().timestamp() < (current_epoch + timeout) *)
Definition before_deadline (current_epoch : Q) (timeout : pyval) : prog bool :=
  t ← now;
  tmo ← to_float timeout;
  Ret (Qlt_bool t (current_epoch + tmo)).

(** The nested function of [oscillate_timeout]. *)
Definition _stop_oscillation_in (relay_id : pyval)
    (period timeout final_state : pyval) : prog pyval :=
  set_stop false;;
  current_epoch ← now;
  While (before_deadline current_epoch timeout) (sleep (PyFloat (1 # 10)))
    (set_stop true;;
     sleep period;;
     enforce relay_id final_state (Ret tt);;
     Ret PyNone).

Definition oscillate_timeout
    (relay_id period timeout block start_state final_state : pyval)
    : prog pyval :=
  assert_ (type_is_int relay_id);;
  assert_ (type_in_int_float period);;
  (ok ← period_ok period; assert_ ok);;
  assert_ (type_is_int timeout);;
  (ok ← positive timeout; assert_ ok);;
  assert_ (type_is_bool block);;
  assert_ (type_is_bool final_state);;
  enforce relay_id start_state (sleep period);;
  oscillate relay_id period (PyBool false);;
  t ← Start (Tgt_stop_oscillation_in relay_id) [period; timeout]
        [("start_state", start_state); ("final_state", final_state)] Ret;
  (if truthy block then join t else Ret tt);;
  Ret PyNone.

(** One round of the loop of [oscillate_cycles]. *)
Definition cycles_body (relay_id period : pyval) : prog unit :=
  toggle relay_id;;
  sleep period;;
  o ← get_osc;
  set_osc (o + (1 # 2)).

(** while not self._stop_oscillation and self._oscillations < cycles *)
Definition cycles_cond (cycles : pyval) : prog bool :=
  s ← get_stop;
  if negb s then
    o ← get_osc;
    c ← num cycles;
    Ret (Qlt_bool o c)
  else Ret false.

Definition oscillate_cycles
    (relay_id period cycles block start_state final_state : pyval)
    : prog pyval :=
  assert_ (type_is_int relay_id);;
  assert_ (type_in_int_float period);;
  (ok ← period_ok period; assert_ ok);;
  assert_ (type_is_int cycles);;
  (ok ← positive cycles; assert_ ok);;
  assert_ (type_is_bool block);;
  assert_ (type_is_bool start_state);;
  assert_ (type_is_bool final_state);;
  if truthy block then
    set_stop false;;
    enforce relay_id start_state (sleep period);;
    set_osc 0;;
    While (cycles_cond cycles) (cycles_body relay_id period)
      (enforce relay_id final_state (Ret tt);;
       Ret PyNone)
  else
    t ← Start Tgt_oscillate_cycles [relay_id; period; cycles]
          [("start_state", start_state); ("final_state", final_state)] Ret;
    Ret (PyThread t).

Definition stop_oscillation : prog pyval :=
  set_stop true;;
  Ret PyNone.

(** ** Calling a target with args and kwargs *)

Fixpoint kw_lookup (name : string) (kwargs : list (string * pyval))
    : option pyval :=
  match kwargs with
  | [] => None
  | (k, v) :: rest => if String.eqb k name then Some v else kw_lookup name rest
  end.

Fixpoint kw_remove (name : string) (kwargs : list (string * pyval))
    : list (string * pyval) :=
  match kwargs with
  | [] => []
  | (k, v) :: rest =>
      if String.eqb k name then kw_remove name rest
      else (k, v) :: kw_remove name rest
  end.

(** Python's binding of a call to a signature of plain parameters:
    a parameter is a name with an optional default.  [None] is the
    TypeError of a call that does not fit (too many positionals, a name
    given twice, an unexpected keyword, a missing argument). *)
Fixpoint bind_args (params : list (string * option pyval))
    (args : list pyval) (kwargs : list (string * pyval))
    : option (list pyval) :=
  match params with
  | [] =>
      match args, kwargs with
      | [], [] => Some []
      | _, _ => None
      end
  | (name, dflt) :: params' =>
      match args with
      | a :: args' =>
          match kw_lookup name kwargs with
          | Some _ => None
          | None => cons a <$> bind_args params' args' kwargs
          end
      | [] =>
          match kw_lookup name kwargs with
          | Some v => cons v <$> bind_args params' [] (kw_remove name kwargs)
          | None =>
              match dflt with
              | Some d => cons d <$> bind_args params' [] kwargs
              | None => None
              end
          end
      end
  end.

Definition sig_oscillate : list (string * option pyval) :=
  [("relay_id", None); ("period", None); ("block", Some (PyBool true))].

Definition sig_oscillate_cycles : list (string * option pyval) :=
  [("relay_id", None); ("period", None); ("cycles", None);
   ("block", Some (PyBool true)); ("start_state", Some (PyBool true));
   ("final_state", Some (PyBool false))].

Definition sig_stop_oscillation_in : list (string * option pyval) :=
  [("period", None); ("timeout", None); ("final_state", None)].

(** What Thread.run does: the target applied to its args and kwargs. *)
Definition call (tg : target) (args : list pyval)
    (kwargs : list (string * pyval)) : prog pyval :=
  match tg with
  | Tgt_oscillate =>
      match bind_args sig_oscillate args kwargs with
      | Some [relay_id; period; block] => oscillate relay_id period block
      | _ => Raise TypeError
      end
  | Tgt_oscillate_cycles =>
      match bind_args sig_oscillate_cycles args kwargs with
      | Some [relay_id; period; cycles; block; start_state; final_state] =>
          oscillate_cycles relay_id period cycles block start_state final_state
      | _ => Raise TypeError
      end
  | Tgt_stop_oscillation_in relay_id =>
      match bind_args sig_stop_oscillation_in args kwargs with
      | Some [period; timeout; final_state] =>
          _stop_oscillation_in relay_id period timeout final_state
      | _ => Raise TypeError
      end
  end.

(** ** The world: controller, device, clock and threads *)

Inductive thread (R : Type) : Type :=
| Ready (p : prog R)
| Asleep (until : Q) (p : prog R)
| Joining (t : nat) (p : prog R)
| Returned (r : R)
| Crashed (e : exn).

Arguments Ready {R} p.
Arguments Asleep {R} until p.
Arguments Joining {R} t p.
Arguments Returned {R} r.
Arguments Crashed {R} e.

(** What a thread does that others can see, in the order it happens. *)
Inductive effect : Type :=
| Requested (rq : request)
| Slept (d : Q)
| Started (t : nat) (tg : target)
| Joined (t : nat).

Record world : Type := {
  self : Shelly1;
  relays : list bool;
  clock : Q;
  trace : list (nat * effect);
  pool : list (thread pyval) }.

Definition stopped (w : world) : bool := _stop_oscillation (self w).
Definition counter (w : world) : Q := _oscillations (self w).

Definition with_stop (b : bool) (w : world) : world :=
  {| self := {| host := host (self w);
                http_timeout := http_timeout (self w);
                shelly_base_url := shelly_base_url (self w);
                _stop_oscillation := b;
                _oscillations := _oscillations (self w) |};
     relays := relays w; clock := clock w; trace := trace w; pool := pool w |}.

Definition with_counter (q : Q) (w : world) : world :=
  {| self := {| host := host (self w);
                http_timeout := http_timeout (self w);
                shelly_base_url := shelly_base_url (self w);
                _stop_oscillation := _stop_oscillation (self w);
                _oscillations := q |};
     relays := relays w; clock := clock w; trace := trace w; pool := pool w |}.

Definition with_relays (rl : list bool) (w : world) : world :=
  {| self := self w; relays := rl; clock := clock w; trace := trace w;
     pool := pool w |}.

Definition with_clock (t : Q) (w : world) : world :=
  {| self := self w; relays := relays w; clock := t; trace := trace w;
     pool := pool w |}.

Definition with_pool (ts : list (thread pyval)) (w : world) : world :=
  {| self := self w; relays := relays w; clock := clock w; trace := trace w;
     pool := ts |}.

Definition record (me : nat) (ev : effect) (w : world) : world :=
  {| self := self w; relays := relays w; clock := clock w;
     trace := trace w ++ [(me, ev)]; pool := pool w |}.

(** *** The device behind the HTTP interface

    The actuator is an external collaborator.  It is taken to be a bank of
    relays that answers every request: [/status] reports each relay's
    [ison], [/relay/<id>?turn=on|off] switches relay [id] and reports it.  A
    relay the device does not have is an HTTP error. *)

Definition relay_doc (b : bool) : json := JDict {[ "ison" := JBool b ]}.

Definition status_doc (rl : list bool) : json :=
  JDict {[ "relays" := JList (relay_doc <$> rl) ]}.

Definition respond (rq : request) (rl : list bool) : exn + (list bool * json) :=
  match rq with
  | GetStatus => inr (rl, status_doc rl)
  | GetRelay (PyInt z) url_state =>
      if (0 <=? z) && (z <? Z.of_nat (length rl))
      then let b := String.eqb url_state "on" in
           inr (<[Z.to_nat z := b]> rl, relay_doc b)
      else inl RequestError
  | GetRelay _ _ => inl RequestError
  end.

(** *** One step of one thread *)

Definition step {R : Type} (me : nat) (p : prog R) (w : world)
    : thread R * world :=
  match p with
  | Ret r => (Returned r, w)
  | Raise e => (Crashed e, w)
  | Request rq k =>
      match respond rq (relays w) with
      | inr (rl, j) => (Ready (k j), record me (Requested rq) (with_relays rl w))
      | inl e => (Crashed e, record me (Requested rq) w)
      end
  | Sleep d k => (Asleep (clock w + d) k, record me (Slept d) w)
  | Now k => (Ready (k (clock w)), w)
  | GetStop k => (Ready (k (stopped w)), w)
  | SetStop b k => (Ready k, with_stop b w)
  | GetOsc k => (Ready (k (counter w)), w)
  | SetOsc q k => (Ready k, with_counter q w)
  | Start tg args kwargs k =>
      let t := length (pool w) in
      (Ready (k t),
       record me (Started t tg)
         (with_pool (pool w ++ [Ready (call tg args kwargs)]) w))
  | Join t k => (Joining t k, record me (Joined t) w)
  | While c b k =>
      (Ready (v ← c; if v : bool then b;; While c b k else k), w)
  end.

Definition finished (w : world) (t : nat) : bool :=
  match pool w !! t with
  | Some (Returned _) | Some (Crashed _) => true
  | _ => false
  end.

(** A thread that waits is woken when what it waits for has happened. *)
Definition advance {R : Type} (me : nat) (s : thread R) (w : world)
    : thread R * world :=
  match s with
  | Ready p => step me p w
  | Asleep until p =>
      if Qle_bool until (clock w) then (Ready p, w) else (s, w)
  | Joining t p => if finished w t then (Ready p, w) else (s, w)
  | Returned _ | Crashed _ => (s, w)
  end.

(** *** The scheduler *)

Inductive action : Type :=
| Run (t : nat)
| Tick (dt : Q).

Definition act (a : action) (w : world) : world :=
  match a with
  | Run t =>
      match pool w !! t with
      | Some s =>
          let '(s', w') := advance t s w in
          with_pool (<[t := s']> (pool w')) w'
      | None => w
      end
  | Tick dt => if Qle_bool 0 dt then with_clock (clock w + dt) w else w
  end.

Definition exec (sched : list action) (w : world) : world :=
  fold_left (λ w a, act a w) sched w.

(** *** A call on its own

    The caller's thread [me] runs and nothing else does; time passes only
    while the caller sleeps. *)

Definition elapse {R : Type} (s : thread R) (w : world) : world :=
  match s with
  | Asleep until _ =>
      if Qle_bool until (clock w) then w else with_clock until w
  | _ => w
  end.

Fixpoint solo {R : Type} (fuel : nat) (me : nat) (s : thread R) (w : world)
    : thread R * world :=
  match fuel with
  | O => (s, w)
  | S fuel' =>
      let '(s', w') := advance me s (elapse s w) in
      solo fuel' me s' w'
  end.

(** The call [p] made by thread [me] in world [w] returns [r] in [w']. *)
Definition returns {R : Type} (me : nat) (p : prog R) (w : world)
    (r : R) (w' : world) : Prop :=
  ∃ fuel, solo fuel me (Ready p) w = (Returned r, w').

Definition raises {R : Type} (me : nat) (p : prog R) (w : world)
    (e : exn) (w' : world) : Prop :=
  ∃ fuel, solo fuel me (Ready p) w = (Crashed (R := R) e, w').

(** A freshly made controller in front of a device, one thread about to
    run [main]. *)
Definition boot (rl : list bool) (main : prog pyval) : world :=
  {| self := init None 1; relays := rl; clock := 0%Q; trace := [];
     pool := [Ready main] |}.

(** ** Vocabulary of the statements *)

(** A thread that runs [p] and then [f]. *)
Definition then_ {A B : Type} (f : A → prog B) (s : thread A) : thread B :=
  match s with
  | Ready p => Ready (prog_bind f p)
  | Asleep until p => Asleep until (prog_bind f p)
  | Joining t p => Joining t (prog_bind f p)
  | Returned r => Ready (f r)
  | Crashed e => Crashed e
  end.

(** The world a caller wakes up in after [time.sleep(d)]. *)
Definition after_sleep (me : nat) (d : Q) (w : world) : world :=
  let w1 := record me (Slept d) w in
  if Qle_bool (clock w + d) (clock w) then w1
  else with_clock (clock w + d) w1.

(** The [turn] that takes a relay to state [b]. *)
Definition turn (b : bool) : string := if b then "on" else "off".

(** The world after thread [me] has fetched [/status]. *)
Definition asked (me : nat) (w : world) : world :=
  record me (Requested GetStatus) w.

(** The world after thread [me] has turned relay [z] to [b]. *)
Definition turned (me : nat) (z : Z) (b : bool) (w : world) : world :=
  record me (Requested (GetRelay (PyInt z) (turn b)))
    (with_relays (<[Z.to_nat z := b]> (relays w)) w).

Definition state_of (b : bool) : RelayState := if b then ON else OFF.

(** What one toggle of relay [z], found in state [b], leaves in the trace. *)
Definition toggled (me : nat) (z : Z) (b : bool) : list (nat * effect) :=
  [(me, Requested GetStatus);
   (me, Requested (GetRelay (PyInt z) (turn (negb b))))].

(** [n] rounds of the cycle loop from relay state [b]: toggle, sleep. *)
Fixpoint rounds (me : nat) (z : Z) (d : Q) (b : bool) (n : nat)
    : list (nat * effect) :=
  match n with
  | O => []
  | S n' => toggled me z b ++ [(me, Slept d)] ++ rounds me z d (negb b) n'
  end.

(** What bringing relay [z] from state [b] to [wanted] leaves in the trace,
    with a settling sleep of [d] when [settle] is set. *)
Definition forced (me : nat) (z : Z) (b wanted : bool) (settle : option Q)
    : list (nat * effect) :=
  (me, Requested GetStatus) ::
  (if Bool.eqb b wanted then []
   else (me, Requested (GetRelay (PyInt z) (turn wanted))) ::
        match settle with Some d => [(me, Slept d)] | None => [] end).

(** The world after relay [z], found in state [b], has been brought to
    [wanted]. *)
Definition enforced (me : nat) (z : Z) (b wanted : bool) (settle : option Q)
    (w : world) : world :=
  if Bool.eqb b wanted then asked me w
  else
    let w1 := turned me z wanted (asked me w) in
    match settle with Some d => after_sleep me d w1 | None => w1 end.

(** The world after one round of the cycle loop, and of the unbounded
    loop, on relay [z] found in state [b]. *)
Definition cycle_round (me : nat) (z : Z) (d : Q) (b : bool) (w : world)
    : world :=
  let w1 := after_sleep me d (turned me z (negb b) (asked me w)) in
  with_counter (counter w1 + (1 # 2)) w1.

Definition oscillate_round (me : nat) (z : Z) (d : Q) (b : bool) (w : world)
    : world :=
  let w1 := turned me z (negb b) (asked me w) in
  after_sleep me d (with_counter (counter w1 + 1) w1).

(** How many [turn] commands a trace holds. *)
Definition is_turn (e : nat * effect) : bool :=
  match e.2 with Requested (GetRelay _ _) => true | _ => false end.

Definition turns (tr : list (nat * effect)) : nat :=
  length (filter (λ e, is_turn e = true) tr).

(** The durations of the sleeps a trace holds, in order. *)
Definition sleeps (tr : list (nat * effect)) : list Q :=
  omap (λ e, match e.2 with Slept d => Some d | _ => None end) tr.

(** A period the methods accept: an int or a float of value [q >= 0.05]. *)
Definition period_is (period : pyval) (q : Q) : Prop :=
  type_in_int_float period = true ∧ py_num period = Some q ∧
  Qle_bool (1 # 20) q = true.

(** A duration that time.sleep takes: at most 2^32 seconds, far enough
    below the limit of the conversion to nanoseconds that the clock
    arithmetic of the operating system does not come into play. *)
Definition sleep_safe : Q := 4294967296 # 1.

Definition sleepable (q : Q) : Prop := Qle_bool q sleep_safe = true.

(** A duration time.sleep refuses: 9223372037 s or more does not fit in 64
    bits of nanoseconds. *)
Definition oversized (q : Q) : Prop := Qle_bool (9223372037 # 1) q = true.


(** Relay [z] exists on the device of [w] and is in state [b]. *)
Definition relay_at (w : world) (z : Z) (b : bool) : Prop :=
  0 ≤ z ∧ relays w !! Z.to_nat z = Some b.

(** The invalid parameters of the error taxonomy. *)
Definition period_below (period : pyval) : bool :=
  match py_num period with
  | Some q => Qlt_bool q (1 # 20)
  | None => false
  end.

Definition positive_int (v : pyval) : bool :=
  match v with PyInt z => 0 <? z | _ => false end.

(** The three oscillation entry points, as a caller invokes them. *)
Inductive invocation : Type :=
| Oscillate (relay_id period block : pyval)
| OscillateTimeout (relay_id period timeout block start_state final_state : pyval)
| OscillateCycles (relay_id period cycles block start_state final_state : pyval).

Definition invoke (c : invocation) : prog pyval :=
  match c with
  | Oscillate relay_id period block => oscillate relay_id period block
  | OscillateTimeout relay_id period timeout block start_state final_state =>
      oscillate_timeout relay_id period timeout block start_state final_state
  | OscillateCycles relay_id period cycles block start_state final_state =>
      oscillate_cycles relay_id period cycles block start_state final_state
  end.

(** An invocation with a relay id that is not an integer, a period below
    0.05, or a timeout or cycle count that is not a positive integer. *)
Definition invalid (c : invocation) : bool :=
  match c with
  | Oscillate relay_id period _ =>
      negb (type_is_int relay_id) || period_below period
  | OscillateTimeout relay_id period n _ _ _
  | OscillateCycles relay_id period n _ _ _ =>
      negb (type_is_int relay_id) || period_below period
      || negb (positive_int n)
  end.

(** A relay entry of a status document that carries an [ison] field. *)
Definition has_ison (e : json) : Prop :=
  ∃ v, getitem_key e "ison" = inr v.

(** A bench: a fresh controller, one relay that is off, thread 0 calling. *)
Definition bench : world := boot [false] (Ret PyNone).

(** A run of timeout mode: the relay is on, thread 0 calls
    oscillate_timeout(0, 0.1, 1, block, True, False). *)
Definition timeout_call (block : bool) : prog pyval :=
  oscillate_timeout (PyInt 0) (PyFloat (1 # 10)) (PyInt 1) (PyBool block)
    (PyBool true) (PyBool false).

(** The caller runs up to its join, the watcher (thread 2) takes its first
    step, the caller resumes. *)
Definition until_return : list action :=
  repeat (Run 0) 4 ++ [Run 2%nat] ++ repeat (Run 0) 2.

(** Then the toggle thread (thread 1) runs, two seconds pass, and it runs
    again. *)
Definition afterwards : list action :=
  repeat (Run 1) 12 ++ [Tick 2] ++ repeat (Run 1) 12.

(** What thread [t] has left in a trace. *)
Definition by_thread (t : nat) (tr : list (nat * effect))
    : list (nat * effect) :=
  filter (λ e, e.1 = t) tr.

(** A cycle run beside a leftover toggle thread: thread 0 calls
    oscillate_timeout(0, 0.1, 1, True, True, False), which returns at once
    and leaves its toggle thread (thread 1) at work, and then calls
    oscillate_cycles(0, 0.1, 3, True, True, False). *)
Definition after_timeout_call : prog pyval :=
  timeout_call true;;
  oscillate_cycles (PyInt 0) (PyFloat (1 # 10)) (PyInt 3) (PyBool true)
    (PyBool true) (PyBool false).

(** The two loops take turns: each makes a round while the other sleeps. *)
Definition side_by_side : list action :=
  until_return ++ repeat (Run 1) 2 ++ repeat (Run 0) 8
  ++ repeat (Run 1) 7 ++ [Tick (1 # 10)] ++ repeat (Run 0) 9
  ++ repeat (Run 1) 8 ++ [Tick (1 # 10)] ++ repeat (Run 0) 10.

(** [n] calls of [p] in succession. *)
Fixpoint in_succession (n : nat) (p : prog pyval) : prog pyval :=
  match n with
  | O => Ret PyNone
  | S n' => p;; in_succession n' p
  end.

(** A program that never writes [False] to the stop flag itself.  Threads
    it starts are sessions of their own. *)
Inductive quiet : ∀ {R : Type}, prog R → Prop :=
| quiet_Ret {R} (r : R) : quiet (Ret r)
| quiet_Raise {R} e : quiet (@Raise R e)
| quiet_Request {R} rq (k : json → prog R) :
    (∀ j, quiet (k j)) → quiet (Request rq k)
| quiet_Sleep {R} d (k : prog R) : quiet k → quiet (Sleep d k)
| quiet_Now {R} (k : Q → prog R) : (∀ t, quiet (k t)) → quiet (Now k)
| quiet_GetStop {R} (k : bool → prog R) :
    (∀ s, quiet (k s)) → quiet (GetStop k)
| quiet_SetStop {R} (k : prog R) : quiet k → quiet (SetStop true k)
| quiet_GetOsc {R} (k : Q → prog R) : (∀ o, quiet (k o)) → quiet (GetOsc k)
| quiet_SetOsc {R} q (k : prog R) : quiet k → quiet (SetOsc q k)
| quiet_Start {R} tg args kwargs (k : nat → prog R) :
    (∀ t, quiet (k t)) → quiet (Start tg args kwargs k)
| quiet_Join {R} t (k : prog R) : quiet k → quiet (Join t k)
| quiet_While {R} c b (k : prog R) :
    quiet c → quiet b → quiet k → quiet (While c b k).

(** The three places where an oscillation session opens: the blocking body
    of [oscillate], the blocking body of [oscillate_cycles], and the watcher
    of [oscillate_timeout].  Each resets the flag first. *)
Inductive session : prog pyval → Prop :=
| session_oscillate relay_id period :
    session
      (set_stop false;;
       set_osc 0;;
       While not_stopped (oscillate_body relay_id period) (Ret PyNone))
| session_cycles relay_id period cycles start_state final_state :
    session
      (set_stop false;;
       enforce relay_id start_state (sleep period);;
       set_osc 0;;
       While (cycles_cond cycles) (cycles_body relay_id period)
         (enforce relay_id final_state (Ret tt);;
          Ret PyNone))
| session_watcher relay_id period timeout final_state :
    session (_stop_oscillation_in relay_id period timeout final_state).

(** A thread whose remaining program is quiet. *)
Definition settled {R : Type} (s : thread R) : Prop :=
  match s with
  | Ready p | Asleep _ p | Joining _ p => quiet p
  | Returned _ | Crashed _ => True
  end.

(** A thread that is settled, or is about to open a session. *)
Definition tame (s : thread pyval) : Prop :=
  settled s ∨ ∃ p, s = Ready p ∧ session p.

(** The world after [n] rounds of the cycle loop on relay [z], found in
    state [b]. *)
Fixpoint after_rounds (me : nat) (z : Z) (d : Q) (b : bool) (n : nat)
    (w : world) : world :=
  match n with
  | O => w
  | S n' => after_rounds me z d (negb b) n' (cycle_round me z d b w)
  end.

(** The world after [n] rounds of the unbounded loop. *)
Fixpoint after_swings (me : nat) (z : Z) (d : Q) (b : bool) (n : nat)
    (w : world) : world :=
  match n with
  | O => w
  | S n' => after_swings me z d (negb b) n' (oscillate_round me z d b w)
  end.


(** * Properties *)

(** ** Running programs *)

Lemma prog_bind_assoc {A B C : Type} (g : A → prog B) (f : B → prog C)
    (p : prog A) :
  prog_bind f (prog_bind g p) = prog_bind (λ a, prog_bind f (g a)) p.
Proof.
  induction p; simpl; f_equal; auto;
    apply functional_extensionality; intros; auto.
Qed.

Section Running.
Context {A B : Type} (me : nat) (f : A → prog B).

Lemma step_then (p : prog A) (w : world) :
  (∀ r, p ≠ Ret r) →
  step me (prog_bind f p) w = (then_ f (step me p w).1, (step me p w).2).
Proof.
  intros Hp. destruct p; simpl; try reflexivity.
  - now destruct (Hp r).
  - destruct (respond rq (relays w)) as [e|[rl j]]; reflexivity.
  - unfold mbind, prog_mbind. rewrite prog_bind_assoc.
    do 3 f_equal. apply functional_extensionality. intros [|]; [|reflexivity].
    rewrite prog_bind_assoc. reflexivity.
Qed.

Lemma advance_then (s : thread A) (w : world) :
  (∀ r, s ≠ Returned r) → (∀ r, s ≠ Ready (Ret r)) →
  advance me (then_ f s) w = (then_ f (advance me s w).1, (advance me s w).2).
Proof.
  intros Hs Hr. destruct s as [p|u p|t p|r|e]; simpl.
  - apply step_then. intros r ->. now destruct (Hr r).
  - destruct (Qle_bool u (clock w)); reflexivity.
  - destruct (finished w t); reflexivity.
  - now destruct (Hs r).
  - reflexivity.
Qed.

Lemma elapse_then (s : thread A) (w : world) :
  elapse (then_ f s) w = elapse s w.
Proof. destruct s; reflexivity. Qed.

Lemma solo_then (n : nat) : ∀ (s : thread A) (w : world) r w',
  solo n me s w = (Returned r, w') →
  ∃ m, solo m me (then_ f s) w = (Ready (f r), w').
Proof.
  induction n as [|n IH]; intros s w r w' H; simpl in H.
  - inversion H; subst. exists O. reflexivity.
  - destruct s as [p|u p|t p|r0|e].
    + destruct p; try (
        destruct (advance me (Ready _) (elapse (Ready _) w)) as [s1 w1] eqn:E;
        apply IH in H; destruct H as [m Hm]; exists (S m);
        cbn [solo]; rewrite elapse_then, advance_then by discriminate;
        rewrite E; exact Hm).
      simpl in H. exists O.
      assert (solo n me (Returned r0) w = (Returned r0, w)) as E.
      { clear. induction n; simpl; auto. }
      rewrite E in H. inversion H; subst. reflexivity.
    + destruct (advance me (Asleep u p) (elapse (Asleep u p) w)) as [s1 w1] eqn:E.
      apply IH in H. destruct H as [m Hm]. exists (S m).
      cbn [solo]. rewrite elapse_then, advance_then by discriminate.
      rewrite E. exact Hm.
    + destruct (advance me (Joining t p) (elapse (Joining t p) w)) as [s1 w1] eqn:E.
      apply IH in H. destruct H as [m Hm]. exists (S m).
      cbn [solo]. rewrite elapse_then, advance_then by discriminate.
      rewrite E. exact Hm.
    + exists O. simpl in H.
      assert (solo n me (Returned r0) w = (Returned r0, w)) as E.
      { clear. induction n; simpl; auto. }
      rewrite E in H. inversion H; subst. reflexivity.
    + simpl in H.
      assert (solo n me (@Crashed A e) w = (Crashed e, w)) as E.
      { clear. induction n; simpl; auto. }
      rewrite E in H. discriminate.
Qed.
End Running.

Lemma solo_returned {R : Type} n me (r : R) w :
  solo n me (Returned r) w = (Returned r, w).
Proof. induction n; simpl; auto. Qed.

Lemma solo_add {R : Type} n m me (s : thread R) w :
  solo (n + m) me s w = solo m me (solo n me s w).1 (solo n me s w).2.
Proof.
  revert s w. induction n as [|n IH]; intros s w; simpl; [reflexivity|].
  destruct (advance me s (elapse s w)) as [s1 w1]. apply IH.
Qed.

Lemma returns_ret {R : Type} me (r : R) w : returns me (Ret r) w r w.
Proof. exists 1%nat. reflexivity. Qed.

Lemma returns_bind {A B : Type} me (p : prog A) (f : A → prog B) w a w' b w'' :
  returns me p w a w' → returns me (f a) w' b w'' →
  returns me (p ≫= f) w b w''.
Proof.
  intros [n Hn] [m Hm]. apply (solo_then me f) in Hn. destruct Hn as [k Hk].
  exists (k + m)%nat. rewrite solo_add. simpl in Hk.
  unfold mbind, prog_mbind. rewrite Hk. exact Hm.
Qed.

Lemma returns_step {R : Type} me (p p' : prog R) w w1 r w' :
  step me p w = (Ready p', w1) → returns me p' w1 r w' → returns me p w r w'.
Proof.
  intros Hs [n Hn]. exists (S n). simpl. rewrite Hs. exact Hn.
Qed.

Lemma returns_lift {R : Type} me (v : R) w : returns me (lift (inr v)) w v w.
Proof. apply returns_ret. Qed.

Lemma returns_assert me w : returns me (assert_ true) w tt w.
Proof. apply returns_ret. Qed.

Lemma returns_request me rq w rl j :
  respond rq (relays w) = inr (rl, j) →
  returns me (Request rq Ret) w j (record me (Requested rq) (with_relays rl w)).
Proof.
  intros H. eapply returns_step; [|apply returns_ret]. simpl. rewrite H.
  reflexivity.
Qed.

Lemma Qle_bool_refl q : Qle_bool q q = true.
Proof. apply Qle_bool_iff, Qle_refl. Qed.

Lemma returns_Sleep me d w : returns me (Sleep d (Ret tt)) w tt (after_sleep me d w).
Proof.
  exists 3%nat. unfold after_sleep. simpl.
  destruct (Qle_bool (clock w + d) (clock w)) eqn:E; simpl.
  - rewrite E. reflexivity.
  - rewrite Qle_bool_refl. reflexivity.
Qed.

Lemma returns_get_stop me w : returns me get_stop w (stopped w) w.
Proof. exists 2%nat. reflexivity. Qed.

Lemma returns_set_stop me b w : returns me (set_stop b) w tt (with_stop b w).
Proof. exists 2%nat. reflexivity. Qed.

Lemma returns_get_osc me w : returns me get_osc w (counter w) w.
Proof. exists 2%nat. reflexivity. Qed.

Lemma returns_set_osc me q w : returns me (set_osc q) w tt (with_counter q w).
Proof. exists 2%nat. reflexivity. Qed.

Lemma returns_Start me tg args kwargs w :
  returns me (Start tg args kwargs Ret) w (length (pool w))
    (record me (Started (length (pool w)) tg)
       (with_pool (pool w ++ [Ready (call tg args kwargs)]) w)).
Proof. exists 2%nat. reflexivity. Qed.

Lemma returns_while_true {R : Type} me c b (k : prog R) w w1 w2 r w3 :
  returns me c w true w1 → returns me b w1 tt w2 →
  returns me (While c b k) w2 r w3 → returns me (While c b k) w r w3.
Proof.
  intros Hc Hb Hk. eapply returns_step; [reflexivity|].
  eapply returns_bind; [exact Hc|]. simpl.
  eapply returns_bind; [exact Hb|]. exact Hk.
Qed.

Lemma returns_while_false {R : Type} me c b (k : prog R) w w1 r w2 :
  returns me c w false w1 → returns me k w1 r w2 →
  returns me (While c b k) w r w2.
Proof.
  intros Hc Hk. eapply returns_step; [reflexivity|].
  eapply returns_bind; [exact Hc|]. exact Hk.
Qed.

Lemma returns_fun {R : Type} me (p : prog R) w r1 w1 r2 w2 :
  returns me p w r1 w1 → returns me p w r2 w2 → r1 = r2 ∧ w1 = w2.
Proof.
  intros [n Hn] [m Hm].
  assert (solo (n + m) me (Ready p) w = (Returned r1, w1)) as H1.
  { rewrite solo_add, Hn. apply solo_returned. }
  assert (solo (m + n) me (Ready p) w = (Returned r2, w2)) as H2.
  { rewrite solo_add, Hm. apply solo_returned. }
  rewrite Nat.add_comm, H1 in H2. inversion H2. auto.
Qed.

(** ** The device, as the methods see it *)

Lemma getitem_relays rl :
  getitem_key (status_doc rl) "relays" = inr (JList (relay_doc <$> rl)).
Proof. unfold getitem_key, status_doc. now rewrite lookup_singleton_eq. Qed.

Lemma getitem_ison b : getitem_key (relay_doc b) "ison" = inr (JBool b).
Proof. unfold getitem_key, relay_doc. now rewrite lookup_singleton_eq. Qed.

Lemma list_index_nat {X : Type} (l : list X) z x :
  0 ≤ z → l !! Z.to_nat z = Some x → list_index l z = inr x.
Proof.
  intros Hz Hl. unfold list_index. apply lookup_lt_Some in Hl as Hlt.
  destruct (z <? 0) eqn:E; [apply Z.ltb_lt in E; lia|].
  assert ((0 <=? z) && (z <? Z.of_nat (length l)) = true) as ->.
  { apply andb_true_intro. split; [apply Z.leb_le|apply Z.ltb_lt]; lia. }
  now rewrite Hl.
Qed.

Lemma getitem_relay rl z b :
  0 ≤ z → rl !! Z.to_nat z = Some b →
  getitem_idx (JList (relay_doc <$> rl)) (PyInt z) = inr (relay_doc b).
Proof.
  intros Hz Hl. simpl. apply list_index_nat; [exact Hz|].
  now rewrite list_lookup_fmap, Hl.
Qed.

Lemma respond_turn rl z b0 b :
  0 ≤ z → rl !! Z.to_nat z = Some b0 →
  respond (GetRelay (PyInt z) (turn b)) rl
  = inr (<[Z.to_nat z := b]> rl, relay_doc b).
Proof.
  intros Hz Hl. apply lookup_lt_Some in Hl. simpl.
  assert ((0 <=? z) && (z <? Z.of_nat (length rl)) = true) as ->.
  { apply andb_true_intro. split; [apply Z.leb_le|apply Z.ltb_lt]; lia. }
  now destruct b.
Qed.

(** ** The methods, run *)

Section Methods.
Context (me : nat) (z : Z).

Lemma get_relay_state_returns w b :
  relay_at w z b →
  returns me (get_relay_state (PyInt z)) w (state_of b) (asked me w).
Proof.
  intros [Hz Hb]. unfold get_relay_state.
  eapply returns_bind; [apply returns_assert|].
  eapply returns_bind.
  { apply (returns_request me GetStatus w (relays w) (status_doc (relays w))).
    reflexivity. }
  rewrite getitem_relays. eapply returns_bind; [apply returns_lift|].
  rewrite (getitem_relay _ _ b) by assumption.
  eapply returns_bind; [apply returns_lift|].
  rewrite getitem_ison. eapply returns_bind; [apply returns_lift|].
  destruct b; apply returns_ret.
Qed.

Lemma power_returns w b0 b :
  relay_at w z b0 →
  returns me (power (PyInt z) (PyBool b)) w (state_of b) (turned me z b w).
Proof.
  intros [Hz Hb]. unfold power.
  eapply returns_bind; [apply returns_assert|].
  eapply returns_bind; [apply returns_assert|].
  eapply returns_bind.
  { apply (returns_request me (GetRelay (PyInt z) (turn b))).
    eapply respond_turn; eassumption. }
  rewrite getitem_ison. eapply returns_bind; [apply returns_lift|].
  destruct b; apply returns_ret.
Qed.

Lemma toggle_returns w b :
  relay_at w z b →
  returns me (toggle (PyInt z)) w (state_of (negb b))
    (turned me z (negb b) (asked me w)).
Proof.
  intros H. unfold toggle.
  eapply returns_bind; [apply returns_assert|].
  eapply returns_bind; [apply get_relay_state_returns, H|].
  destruct b; simpl; eapply power_returns; exact H.
Qed.

Lemma sleep_returns period q w :
  period_is period q → sleepable q →
  returns me (sleep period) w tt (after_sleep me q w).
Proof.
  intros (_ & Hq & Hge) Hle. unfold sleep, num. rewrite Hq. simpl.
  apply Qle_bool_iff in Hge. apply Qle_bool_iff in Hle.
  assert (Qlt_bool sleep_max q = false) as ->.
  { unfold Qlt_bool. apply negb_false_iff, Qle_bool_iff.
    eapply Qle_trans; [exact Hle|]. discriminate. }
  assert (Qlt_bool q sleep_min = false) as ->.
  { unfold Qlt_bool. apply negb_false_iff, Qle_bool_iff.
    eapply Qle_trans; [|exact Hge]. discriminate. }
  assert (Qlt_bool q 0 = false) as ->.
  { unfold Qlt_bool. apply negb_false_iff, Qle_bool_iff.
    eapply Qle_trans; [|exact Hge]. discriminate. }
  apply returns_Sleep.
Qed.
End Methods.

(** ** What the world transformers leave alone *)

Lemma after_sleep_self me d w : self (after_sleep me d w) = self w.
Proof. unfold after_sleep. now destruct (Qle_bool _ _). Qed.

Lemma after_sleep_relays me d w : relays (after_sleep me d w) = relays w.
Proof. unfold after_sleep. now destruct (Qle_bool _ _). Qed.

Lemma after_sleep_pool me d w : pool (after_sleep me d w) = pool w.
Proof. unfold after_sleep. now destruct (Qle_bool _ _). Qed.

Lemma after_sleep_trace me d w :
  trace (after_sleep me d w) = trace w ++ [(me, Slept d)].
Proof. unfold after_sleep. now destruct (Qle_bool _ _). Qed.

Lemma after_sleep_stopped me d w : stopped (after_sleep me d w) = stopped w.
Proof. unfold stopped. now rewrite after_sleep_self. Qed.

Lemma after_sleep_counter me d w : counter (after_sleep me d w) = counter w.
Proof. unfold counter. now rewrite after_sleep_self. Qed.

Lemma enforced_self me z b wanted settle w :
  self (enforced me z b wanted settle w) = self w.
Proof.
  unfold enforced. destruct (Bool.eqb b wanted); [reflexivity|].
  destruct settle; [now rewrite after_sleep_self|reflexivity].
Qed.

Lemma enforced_pool me z b wanted settle w :
  pool (enforced me z b wanted settle w) = pool w.
Proof.
  unfold enforced. destruct (Bool.eqb b wanted); [reflexivity|].
  destruct settle; [now rewrite after_sleep_pool|reflexivity].
Qed.

Lemma enforced_trace me z b wanted settle w :
  trace (enforced me z b wanted settle w)
  = trace w ++ forced me z b wanted settle.
Proof.
  unfold enforced, forced. destruct (Bool.eqb b wanted); [reflexivity|].
  destruct settle; [rewrite after_sleep_trace|]; simpl;
    rewrite <- ?app_assoc; reflexivity.
Qed.

Lemma enforced_relays me z b wanted settle w :
  relays w !! Z.to_nat z = Some b →
  relays (enforced me z b wanted settle w) = <[Z.to_nat z := wanted]> (relays w).
Proof.
  intros Hb. unfold enforced. destruct (Bool.eqb b wanted) eqn:E.
  - apply Bool.eqb_prop in E. subst. simpl. symmetry. now apply list_insert_id.
  - destruct settle; [now rewrite after_sleep_relays|reflexivity].
Qed.

Lemma relay_at_insert w w' z b0 b :
  relay_at w z b0 → relays w' = <[Z.to_nat z := b]> (relays w) →
  relay_at w' z b.
Proof.
  intros [Hz Hb] H. split; [exact Hz|]. rewrite H.
  apply list_lookup_insert_eq. eapply lookup_lt_Some, Hb.
Qed.

Section Enforce.
Context (me : nat) (z : Z).

Lemma py_ne_states b wanted :
  py_ne (PyBool (value (state_of b))) (PyBool wanted) = negb (Bool.eqb b wanted).
Proof. now destruct b, wanted. Qed.

Lemma enforce_settle_returns w b wanted period q :
  relay_at w z b → period_is period q → sleepable q →
  returns me (enforce (PyInt z) (PyBool wanted) (sleep period)) w tt
    (enforced me z b wanted (Some q) w).
Proof.
  intros Hr Hp Hsl. unfold enforce, enforced.
  eapply returns_bind; [apply get_relay_state_returns, Hr|].
  rewrite py_ne_states. destruct (Bool.eqb b wanted); cbn [negb].
  - apply returns_ret.
  - eapply returns_bind.
    + eapply power_returns. destruct Hr. split; eassumption.
    + apply sleep_returns; [exact Hp|exact Hsl].
Qed.

(** Nothing to enforce: the relay is where it is wanted. *)
Lemma enforce_nothing_returns w b settle :
  relay_at w z b →
  returns me (enforce (PyInt z) (PyBool b) settle) w tt (asked me w).
Proof.
  intros Hr. unfold enforce.
  eapply returns_bind; [apply get_relay_state_returns, Hr|].
  rewrite py_ne_states, Bool.eqb_reflx. apply returns_ret.
Qed.

Lemma enforce_returns w b wanted :
  relay_at w z b →
  returns me (enforce (PyInt z) (PyBool wanted) (Ret tt)) w tt
    (enforced me z b wanted None w).
Proof.
  intros Hr. unfold enforce, enforced.
  eapply returns_bind; [apply get_relay_state_returns, Hr|].
  rewrite py_ne_states. destruct (Bool.eqb b wanted); cbn [negb].
  - apply returns_ret.
  - eapply returns_bind.
    + eapply power_returns. destruct Hr. split; eassumption.
    + apply returns_ret.
Qed.
End Enforce.

(** ** The two toggle loops *)

Section Loops.
Context (me : nat) (z : Z) (period : pyval) (q : Q).
Hypothesis Hperiod : period_is period q.
Hypothesis Hsleep : sleepable q.

Lemma cycles_body_returns w b :
  relay_at w z b →
  returns me (cycles_body (PyInt z) period) w tt (cycle_round me z q b w).
Proof.
  intros Hr. unfold cycles_body, cycle_round.
  eapply returns_bind; [apply toggle_returns, Hr|].
  eapply returns_bind; [apply sleep_returns; [exact Hperiod|exact Hsleep]|].
  eapply returns_bind; [apply returns_get_osc|].
  apply returns_set_osc.
Qed.

Lemma oscillate_body_returns w b :
  relay_at w z b →
  returns me (oscillate_body (PyInt z) period) w tt
    (oscillate_round me z q b w).
Proof.
  intros Hr. unfold oscillate_body, oscillate_round.
  eapply returns_bind; [apply toggle_returns, Hr|].
  eapply returns_bind; [apply returns_get_osc|].
  eapply returns_bind; [apply returns_set_osc|].
  apply sleep_returns; [exact Hperiod|exact Hsleep].
Qed.

Lemma cycle_round_counter b w :
  counter (cycle_round me z q b w) = (counter w + (1 # 2))%Q.
Proof. unfold cycle_round. simpl. now rewrite after_sleep_counter. Qed.

Lemma cycle_round_trace b w :
  trace (cycle_round me z q b w)
  = trace w ++ toggled me z b ++ [(me, Slept q)].
Proof.
  unfold cycle_round. simpl. rewrite after_sleep_trace. simpl.
  now rewrite <- !app_assoc.
Qed.

Lemma cycle_round_relays b w :
  relays (cycle_round me z q b w) = <[Z.to_nat z := negb b]> (relays w).
Proof. unfold cycle_round. simpl. now rewrite after_sleep_relays. Qed.

Lemma cycle_round_stopped b w :
  stopped (cycle_round me z q b w) = stopped w.
Proof.
  unfold cycle_round, stopped. simpl. now rewrite after_sleep_self.
Qed.

Lemma cycle_round_pool b w : pool (cycle_round me z q b w) = pool w.
Proof. unfold cycle_round. simpl. now rewrite after_sleep_pool. Qed.


Lemma oscillate_round_trace b w :
  trace (oscillate_round me z q b w)
  = trace w ++ toggled me z b ++ [(me, Slept q)].
Proof.
  unfold oscillate_round. rewrite after_sleep_trace. simpl.
  now rewrite <- !app_assoc.
Qed.

Lemma cycles_cond_returns c w :
  stopped w = false →
  returns me (cycles_cond (PyInt c)) w (Qlt_bool (counter w) (inject_Z c)) w.
Proof.
  intros Hs. unfold cycles_cond.
  eapply returns_bind; [apply returns_get_stop|]. rewrite Hs. cbn [negb].
  eapply returns_bind; [apply returns_get_osc|].
  apply returns_ret.
Qed.

(** [n] half-cycles short of [c], the loop makes [n] more rounds. *)
Lemma cycles_loop c n : ∀ w b,
  relay_at w z b → stopped w = false →
  counter w + inject_Z (Z.of_nat n) * (1 # 2) == inject_Z c →
  ∃ w',
    relays w' = <[Z.to_nat z := Nat.iter n negb b]> (relays w) ∧
    stopped w' = false ∧ counter w' == inject_Z c ∧
    trace w' = trace w ++ rounds me z q b n ∧ pool w' = pool w ∧
    ∀ (R : Type) (k : prog R) r w'',
      returns me k w' r w'' →
      returns me
        (While (cycles_cond (PyInt c)) (cycles_body (PyInt z) period) k)
        w r w''.
Proof.
  induction n as [|n IH]; intros w b Hr Hs Hc.
  - change (inject_Z (Z.of_nat 0)) with 0%Q in Hc.
    assert (counter w == inject_Z c) as Hc' by lra.
    exists w. cbn [Nat.iter nat_rect rounds]. repeat split; auto.
    + symmetry. apply list_insert_id. apply Hr.
    + now rewrite app_nil_r.
    + intros R k r w'' Hk. eapply returns_while_false; [|exact Hk].
      assert (Qlt_bool (counter w) (inject_Z c) = false) as <-.
      { apply negb_false_iff, Qle_bool_iff. lra. }
      now apply cycles_cond_returns.
  - assert (inject_Z (Z.of_nat (S n)) == inject_Z (Z.of_nat n) + 1) as Hn.
    { rewrite Nat2Z.inj_succ. unfold Z.succ. now rewrite inject_Z_plus. }
    assert (0 <= inject_Z (Z.of_nat n))%Q as Hpos.
    { rewrite <- (Zle_Qle 0). lia. }
    rewrite Hn in Hc.
    destruct (IH (cycle_round me z q b w) (negb b)) as (w' & H1 & H2 & H3 & H4 & H5 & H6).
    + eapply relay_at_insert; [exact Hr|]. apply cycle_round_relays.
    + now rewrite cycle_round_stopped.
    + rewrite cycle_round_counter. lra.
    + exists w'. repeat split; auto.
      * rewrite H1, cycle_round_relays, list_insert_insert_eq.
        now rewrite Nat.iter_succ_r.
      * rewrite H4, cycle_round_trace. simpl. now rewrite <- !app_assoc.
      * now rewrite H5, cycle_round_pool.
      * intros R k r w'' Hk. eapply returns_while_true.
        -- assert (Qlt_bool (counter w) (inject_Z c) = true) as <-.
           { apply negb_true_iff. apply not_true_iff_false.
             rewrite Qle_bool_iff. lra. }
           now apply cycles_cond_returns.
        -- apply cycles_body_returns, Hr.
        -- now apply H6.
Qed.
End Loops.

(** ** The parameter checks, passed *)

Lemma period_ok_pass period q :
  period_is period q → (period_ok period ≫= λ ok, assert_ ok) = Ret tt.
Proof.
  intros (_ & Hq & Hge). unfold period_ok, num. rewrite Hq. simpl.
  now rewrite Hge.
Qed.

Lemma positive_pass c :
  0 < c → (positive (PyInt c) ≫= λ ok, assert_ ok) = Ret tt.
Proof.
  intros Hc. unfold positive, num. simpl.
  assert (Qlt_bool 0 (inject_Z c) = true) as ->; [|reflexivity].
  apply negb_true_iff, not_true_iff_false. rewrite Qle_bool_iff.
  change 0%Q with (inject_Z 0). rewrite <- Zle_Qle. lia.
Qed.

Lemma turns_rounds me z d b n : turns (rounds me z d b n) = n.
Proof.
  revert b. induction n as [|n IH]; intros b; [reflexivity|].
  unfold turns in *. simpl. f_equal. apply IH.
Qed.

(** ** The claims *)


(** C5 (amended).  A blocking oscillate_cycles that runs alone on the
    controller, with a period of at most 2^32 s and at most 2^52 cycles,
    sets up the start state, then makes exactly 2*cycles rounds of toggle
    and sleep, which bring the counter to exactly [cycles], and only then
    enforces the final state.  The command that brings the relay into the
    start state is not among the counted ones. *)
Theorem oscillate_cycles_exact me w z b0 period q c start final :
  relay_at w z b0 → period_is period q → sleepable q → 0 < c ≤ 2 ^ 52 →
  ∃ w',
    returns me
      (oscillate_cycles (PyInt z) period (PyInt c) (PyBool true)
         (PyBool start) (PyBool final)) w PyNone w' ∧
    trace w' = trace w ++ forced me z b0 start (Some q)
                 ++ rounds me z q start (Z.to_nat (2 * c))
                 ++ forced me z start final None ∧
    turns (rounds me z q start (Z.to_nat (2 * c))) = Z.to_nat (2 * c) ∧
    counter w' == inject_Z c ∧
    relays w' = <[Z.to_nat z := final]> (relays w) ∧
    pool w' = pool w.
Proof.
  intros Hr Hp Hsl [Hc _].
  set (w1 := enforced me z b0 start (Some q) (with_stop false w)).
  set (w2 := with_counter 0 w1).
  assert (relays w2 = <[Z.to_nat z := start]> (relays w)) as Hrel2.
  { unfold w2, w1. simpl. rewrite enforced_relays; [reflexivity|apply Hr]. }
  assert (relay_at w2 z start) as Hr2.
  { eapply relay_at_insert; [exact Hr|exact Hrel2]. }
  destruct (cycles_loop me z period q Hp Hsl c (Z.to_nat (2 * c)) w2 start)
    as (w3 & H1 & H2 & H3 & H4 & H5 & H6).
  - exact Hr2.
  - unfold w2, w1, stopped. simpl. now rewrite enforced_self.
  - change (counter w2) with 0%Q. rewrite Z2Nat.id by lia.
    rewrite inject_Z_mult. change (inject_Z 2) with 2%Q. lra.
  - assert (Nat.iter (Z.to_nat (2 * c)) negb start = start) as Hit.
    { replace (Z.to_nat (2 * c)) with (2 * Z.to_nat c)%nat by lia.
      generalize (Z.to_nat c). intros n. induction n as [|n IHn]; [reflexivity|].
      replace (2 * S n)%nat with (S (S (2 * n))) by lia.
      cbn [Nat.iter nat_rect]. fold (Nat.iter (2 * n) negb start).
      rewrite IHn. apply negb_involutive. }
    rewrite Hit in H1.
    assert (relays w3 = relays w2) as Hrel3.
    { rewrite H1. apply list_insert_id. apply Hr2. }
    assert (relay_at w3 z start) as Hr3.
    { destruct Hr2 as [Hz Hl]. split; [exact Hz|]. now rewrite Hrel3. }
    exists (enforced me z start final None w3). split; [|repeat split].
    + unfold oscillate_cycles.
      eapply returns_bind; [apply returns_assert|].
      destruct Hp as (Ht & Hq & Hge). rewrite Ht.
      eapply returns_bind; [apply returns_assert|].
      rewrite (period_ok_pass period q) by (repeat split; assumption).
      eapply returns_bind; [apply returns_ret|].
      eapply returns_bind; [apply returns_assert|].
      rewrite positive_pass by assumption.
      eapply returns_bind; [apply returns_ret|].
      eapply returns_bind; [apply returns_assert|].
      eapply returns_bind; [apply returns_assert|].
      eapply returns_bind; [apply returns_assert|].
      cbn [truthy].
      eapply returns_bind; [apply returns_set_stop|].
      eapply returns_bind.
      { apply (enforce_settle_returns me z (with_stop false w) b0 start
                 period q); [exact Hr| |exact Hsl].
        repeat split; assumption. }
      eapply returns_bind; [apply returns_set_osc|].
      apply H6.
      eapply returns_bind; [apply enforce_returns, Hr3|].
      apply returns_ret.
    + rewrite enforced_trace, H4. unfold w2, w1. simpl.
      rewrite enforced_trace. simpl. now rewrite <- !app_assoc.
    + apply turns_rounds.
    + unfold counter. rewrite enforced_self. exact H3.
    + rewrite enforced_relays by apply Hr3. rewrite Hrel3, Hrel2.
      apply list_insert_insert_eq.
    + rewrite enforced_pool, H5. unfold w2, w1. simpl.
      now rewrite enforced_pool.
Qed.

(** C5, on the bench: three cycles are six toggles. *)
Lemma oscillate_cycles_exact_witness :
  ∃ w',
    returns 0
      (oscillate_cycles (PyInt 0) (PyFloat (1 # 10)) (PyInt 3) (PyBool true)
         (PyBool true) (PyBool false)) bench PyNone w' ∧
    trace w' = trace bench ++ forced 0 0 false true (Some (1 # 10))
                 ++ rounds 0 0 (1 # 10) true (Z.to_nat (2 * 3))
                 ++ forced 0 0 true false None ∧
    turns (rounds 0 0 (1 # 10) true (Z.to_nat (2 * 3))) = Z.to_nat (2 * 3) ∧
    counter w' == inject_Z 3 ∧
    relays w' = <[Z.to_nat 0 := false]> (relays bench) ∧
    pool w' = pool bench.
Proof.
  apply (oscillate_cycles_exact 0 bench 0 false (PyFloat (1 # 10)) (1 # 10) 3
           true false).
  - split; [lia|reflexivity].
  - repeat split.
  - reflexivity.
  - split; [lia|]. apply Z.leb_le. reflexivity.
Defined.

(** C5 as stated fails beside another toggle loop.  The toggle thread that
    oscillate_timeout has left behind adds 1 to the shared counter at each
    of its rounds, so that oscillate_cycles(0, 0.1, 3, ...) reaches the
    count of 3 after two toggles of its own and returns, having sent three
    turn commands (two toggles and the final state) where the claim has six
    toggles.  Nobody has set the stop flag: it is False from the reset at
    the seventh step to the end. *)
Lemma leftover_thread_shortens_cycles :
  let w0 := boot [true] after_timeout_call in
  let w' := exec side_by_side w0 in
  pool w' !! 0%nat = Some (Returned PyNone) ∧
  finished w' 1 = false ∧
  counter w' == 3 ∧
  turns (by_thread 0 (trace w')) = 3%nat ∧
  turns (by_thread 0 (trace w')) ≠ (2 * 3 + 1)%nat ∧
  forallb (λ k, negb (stopped (exec (take k side_by_side) w0)))
    (seq 7 (length side_by_side - 6)) = true.
Proof.
  cbv zeta. repeat split; try (vm_compute; reflexivity).
  vm_compute. discriminate.
Qed.



(** C7.  An invocation with an invalid parameter raises AssertionError at
    its first step and leaves the world as it was: no request has gone to
    the device, no thread has been started, and the other threads of the
    process are untouched. *)
Theorem invalid_parameter_rejected c me w :
  invalid c = true →
  step me (invoke c) w = (Crashed AssertionError, w) ∧
  raises me (invoke c) w AssertionError w.
Proof.
  intros Hinv.
  assert (step me (invoke c) w = (Crashed AssertionError, w)) as Hstep;
    [|split; [exact Hstep|exists 1%nat; simpl; now rewrite Hstep]].
  revert Hinv.
  assert (∀ period, period_below period = true →
            type_in_int_float period = true →
            (period_ok period ≫= λ ok, assert_ ok) = Raise AssertionError) as Hper.
  { intros period Hb _. unfold period_below in Hb. unfold period_ok, num.
    destruct (py_num period) as [q|]; [|discriminate]. simpl.
    unfold Qlt_bool in Hb. apply negb_true_iff in Hb. now rewrite Hb. }
  assert (∀ period, type_in_int_float period = true →
            period_below period = false →
            (period_ok period ≫= λ ok, assert_ ok) = Ret tt) as Hpass.
  { intros period Ht Hb. unfold period_below in Hb. unfold period_ok, num.
    destruct period; try discriminate; simpl in *;
      unfold Qlt_bool in Hb; apply negb_false_iff in Hb; now rewrite Hb. }
  assert (∀ n, positive_int n = false → type_is_int n = true →
            (positive n ≫= λ ok, assert_ ok) = Raise AssertionError) as Hpos.
  { intros [| | k | | |] Hn Hi; try discriminate. simpl in Hn.
    unfold positive, num. simpl.
    assert (Qlt_bool 0 (inject_Z k) = false) as ->; [|reflexivity].
    apply negb_false_iff, Qle_bool_iff. change 0%Q with (inject_Z 0).
    rewrite <- Zle_Qle. apply Z.ltb_ge in Hn. exact Hn. }
  destruct c as [relay_id period block
                | relay_id period n block start_state final_state
                | relay_id period n block start_state final_state];
    cbn [invalid invoke]; intros H.
  - unfold oscillate.
    destruct (type_is_int relay_id); [|reflexivity].
    destruct (type_in_int_float period) eqn:Et; [|reflexivity].
    cbn [negb orb] in H. rewrite (Hper period H Et). reflexivity.
  - unfold oscillate_timeout.
    destruct (type_is_int relay_id); [|reflexivity].
    destruct (type_in_int_float period) eqn:Et; [|reflexivity].
    cbn [negb orb] in H.
    destruct (period_below period) eqn:Eb.
    { rewrite (Hper period Eb Et). reflexivity. }
    cbn [orb] in H. apply negb_true_iff in H.
    rewrite (Hpass period Et Eb).
    destruct (type_is_int n) eqn:Ei; [|reflexivity].
    rewrite (Hpos n H Ei). reflexivity.
  - unfold oscillate_cycles.
    destruct (type_is_int relay_id); [|reflexivity].
    destruct (type_in_int_float period) eqn:Et; [|reflexivity].
    cbn [negb orb] in H.
    destruct (period_below period) eqn:Eb.
    { rewrite (Hper period Eb Et). reflexivity. }
    cbn [orb] in H. apply negb_true_iff in H.
    rewrite (Hpass period Et Eb).
    destruct (type_is_int n) eqn:Ei; [|reflexivity].
    rewrite (Hpos n H Ei). reflexivity.
Qed.

(** C7, on the bench: a period of 0.04 is rejected. *)
Lemma invalid_parameter_rejected_witness :
  step 0 (invoke (OscillateCycles (PyInt 0) (PyFloat (4 # 100)) (PyInt 3)
                    (PyBool true) (PyBool true) (PyBool false))) bench
  = (Crashed AssertionError, bench) ∧
  raises 0 (invoke (OscillateCycles (PyInt 0) (PyFloat (4 # 100)) (PyInt 3)
                      (PyBool true) (PyBool true) (PyBool false))) bench
    AssertionError bench.
Proof.
  apply (invalid_parameter_rejected
           (OscillateCycles (PyInt 0) (PyFloat (4 # 100)) (PyInt 3)
              (PyBool true) (PyBool true) (PyBool false)) 0 bench).
  reflexivity.
Defined.

(** C8.  Any number of calls of stop_oscillation in succession leave the
    controller as one call does: the stop flag is set and stays set.  The
    call neither waits (the clock and the trace are as before: no sleep, no
    join) nor touches the relay (no request, the device is as before). *)
Theorem stop_oscillation_idempotent me w n :
  returns me (in_succession (S n) stop_oscillation) w PyNone (with_stop true w) ∧
  with_stop true (with_stop true w) = with_stop true w ∧
  stopped (with_stop true w) = true ∧
  relays (with_stop true w) = relays w ∧
  trace (with_stop true w) = trace w ∧
  clock (with_stop true w) = clock w ∧
  pool (with_stop true w) = pool w.
Proof.
  split; [|repeat split].
  revert w. induction n as [|n IH]; intros w.
  - cbn [in_succession]. eapply returns_bind; [|apply returns_ret].
    unfold stop_oscillation.
    eapply returns_bind; [apply returns_set_stop|apply returns_ret].
  - change (in_succession (S (S n)) stop_oscillation)
      with (stop_oscillation ≫= λ _, in_succession (S n) stop_oscillation).
    eapply returns_bind.
    + unfold stop_oscillation.
      eapply returns_bind; [apply returns_set_stop|apply returns_ret].
    + apply (IH (with_stop true w)).
Qed.

(** ** Threads started by the methods *)

Lemma call_oscillate relay_id period :
  call Tgt_oscillate [relay_id; period] []
  = oscillate relay_id period (PyBool true).
Proof. reflexivity. Qed.

Lemma call_oscillate_cycles relay_id period cycles start_state final_state :
  call Tgt_oscillate_cycles [relay_id; period; cycles]
    [("start_state", start_state); ("final_state", final_state)]
  = oscillate_cycles relay_id period cycles (PyBool true) start_state final_state.
Proof. reflexivity. Qed.

(** The watcher is handed a keyword its signature does not have. *)
Lemma call_watcher relay_id period timeout start_state final_state :
  call (Tgt_stop_oscillation_in relay_id) [period; timeout]
    [("start_state", start_state); ("final_state", final_state)]
  = Raise TypeError.
Proof. reflexivity. Qed.

(** The world after [me] has started a thread that runs [p]. *)
Lemma oscillate_background me w z period q :
  period_is period q →
  returns me (oscillate (PyInt z) period (PyBool false)) w
    (PyThread (length (pool w)))
    (record me (Started (length (pool w)) Tgt_oscillate)
       (with_pool (pool w ++ [Ready (call Tgt_oscillate [PyInt z; period] [])])
          w)).
Proof.
  intros Hp. unfold oscillate.
  eapply returns_bind; [apply returns_assert|].
  destruct Hp as (Ht & Hq & Hge). rewrite Ht.
  eapply returns_bind; [apply returns_assert|].
  rewrite (period_ok_pass period q) by (repeat split; assumption).
  eapply returns_bind; [apply returns_ret|].
  eapply returns_bind; [apply returns_assert|].
  cbn [truthy].
  eapply returns_bind; [apply returns_Start|apply returns_ret].
Qed.

Lemma oscillate_cycles_background me w z period q c start final :
  period_is period q → 0 < c →
  returns me
    (oscillate_cycles (PyInt z) period (PyInt c) (PyBool false)
       (PyBool start) (PyBool final)) w
    (PyThread (length (pool w)))
    (record me (Started (length (pool w)) Tgt_oscillate_cycles)
       (with_pool
          (pool w ++
           [Ready (call Tgt_oscillate_cycles [PyInt z; period; PyInt c]
                     [("start_state", PyBool start);
                      ("final_state", PyBool final)])]) w)).
Proof.
  intros Hp Hc. unfold oscillate_cycles.
  eapply returns_bind; [apply returns_assert|].
  destruct Hp as (Ht & Hq & Hge). rewrite Ht.
  eapply returns_bind; [apply returns_assert|].
  rewrite (period_ok_pass period q) by (repeat split; assumption).
  eapply returns_bind; [apply returns_ret|].
  eapply returns_bind; [apply returns_assert|].
  rewrite positive_pass by assumption.
  eapply returns_bind; [apply returns_ret|].
  eapply returns_bind; [apply returns_assert|].
  eapply returns_bind; [apply returns_assert|].
  eapply returns_bind; [apply returns_assert|].
  cbn [truthy].
  eapply returns_bind; [apply returns_Start|apply returns_ret].
Qed.

(** C6.  With block=False, oscillate and oscillate_cycles do one thing: they
    start a thread and return its handle.  The thread runs the blocking
    variant of the same method on the same arguments, start-state setup
    included; the caller has sent nothing to the device and has not waited
    (its only effect is the start of the thread, the clock has not moved). *)
Theorem background_runs_the_blocking_variant me w z period q c start final :
  period_is period q → 0 < c →
  let t := length (pool w) in
  returns me (oscillate (PyInt z) period (PyBool false)) w (PyThread t)
    (record me (Started t Tgt_oscillate)
       (with_pool
          (pool w ++ [Ready (oscillate (PyInt z) period (PyBool true))]) w)) ∧
  returns me
    (oscillate_cycles (PyInt z) period (PyInt c) (PyBool false)
       (PyBool start) (PyBool final)) w (PyThread t)
    (record me (Started t Tgt_oscillate_cycles)
       (with_pool
          (pool w ++
           [Ready (oscillate_cycles (PyInt z) period (PyInt c) (PyBool true)
                     (PyBool start) (PyBool final))]) w)).
Proof.
  intros Hp Hc t. split.
  - rewrite <- call_oscillate. now apply (oscillate_background me w z period q).
  - rewrite <- call_oscillate_cycles.
    now apply (oscillate_cycles_background me w z period q).
Qed.

Lemma background_runs_the_blocking_variant_witness :
  let t := length (pool bench) in
  returns 0 (oscillate (PyInt 0) (PyFloat (1 # 10)) (PyBool false)) bench
    (PyThread t)
    (record 0 (Started t Tgt_oscillate)
       (with_pool
          (pool bench ++
           [Ready (oscillate (PyInt 0) (PyFloat (1 # 10)) (PyBool true))])
          bench)) ∧
  returns 0
    (oscillate_cycles (PyInt 0) (PyFloat (1 # 10)) (PyInt 3) (PyBool false)
       (PyBool true) (PyBool false)) bench (PyThread t)
    (record 0 (Started t Tgt_oscillate_cycles)
       (with_pool
          (pool bench ++
           [Ready (oscillate_cycles (PyInt 0) (PyFloat (1 # 10)) (PyInt 3)
                     (PyBool true) (PyBool true) (PyBool false))]) bench)).
Proof.
  apply (background_runs_the_blocking_variant 0 bench 0 (PyFloat (1 # 10))
           (1 # 10) 3 true false).
  - repeat split.
  - lia.
Defined.

(** C9.  In timeout mode the start-state setup is the caller's own work,
    also with block=False: when the relay is not in the start state, the
    caller fetches the status, commands the start state and sleeps one
    period, and only then starts the toggle thread and the watcher, and
    returns.  Neither started thread is handed the setup. *)
Theorem timeout_setup_is_synchronous me w z b0 period q t start final :
  relay_at w z b0 → b0 ≠ start → period_is period q → sleepable q → 0 < t →
  ∃ w',
    returns me
      (oscillate_timeout (PyInt z) period (PyInt t) (PyBool false)
         (PyBool start) (PyBool final)) w PyNone w' ∧
    trace w' = trace w ++
      [(me, Requested GetStatus);
       (me, Requested (GetRelay (PyInt z) (turn start)));
       (me, Slept q);
       (me, Started (length (pool w)) Tgt_oscillate);
       (me, Started (S (length (pool w))) (Tgt_stop_oscillation_in (PyInt z)))] ∧
    pool w' = pool w ++
      [Ready (oscillate (PyInt z) period (PyBool true));
       Ready (call (Tgt_stop_oscillation_in (PyInt z)) [period; PyInt t]
                [("start_state", PyBool start); ("final_state", PyBool final)])] ∧
    relays w' = <[Z.to_nat z := start]> (relays w).
Proof.
  intros Hr Hne Hp Hsl Ht.
  assert (Bool.eqb b0 start = false) as Heq.
  { destruct b0, start; try reflexivity; now destruct Hne. }
  eexists. split; [|split; [|split]].
  - unfold oscillate_timeout.
    eapply returns_bind; [apply returns_assert|].
    destruct Hp as (Hty & Hq & Hge). rewrite Hty.
    eapply returns_bind; [apply returns_assert|].
    rewrite (period_ok_pass period q) by (repeat split; assumption).
    eapply returns_bind; [apply returns_ret|].
    eapply returns_bind; [apply returns_assert|].
    rewrite positive_pass by assumption.
    eapply returns_bind; [apply returns_ret|].
    eapply returns_bind; [apply returns_assert|].
    eapply returns_bind; [apply returns_assert|].
    eapply returns_bind.
    { apply (enforce_settle_returns me z w b0 start period q);
        [exact Hr| |exact Hsl].
      repeat split; assumption. }
    eapply returns_bind.
    { apply (oscillate_background me _ z period q). repeat split; assumption. }
    eapply returns_bind; [apply returns_Start|].
    cbn [truthy].
    eapply returns_bind; [apply returns_ret|apply returns_ret].
  - cbn [trace record with_pool]. rewrite enforced_trace. unfold forced.
    rewrite Heq. cbn [pool record with_pool]. rewrite enforced_pool.
    rewrite <- !app_assoc, length_app. cbn [length]. rewrite Nat.add_1_r.
    reflexivity.
  - cbn [pool record with_pool]. rewrite enforced_pool.
    rewrite <- !app_assoc. reflexivity.
  - cbn [relays record with_pool]. apply enforced_relays, Hr.
Qed.

Lemma timeout_setup_is_synchronous_witness :
  ∃ w',
    returns 0
      (oscillate_timeout (PyInt 0) (PyFloat (1 # 10)) (PyInt 1) (PyBool false)
         (PyBool true) (PyBool false)) bench PyNone w' ∧
    trace w' = trace bench ++
      [(0%nat, Requested GetStatus);
       (0%nat, Requested (GetRelay (PyInt 0) (turn true)));
       (0%nat, Slept (1 # 10));
       (0%nat, Started (length (pool bench)) Tgt_oscillate);
       (0%nat, Started (S (length (pool bench)))
                 (Tgt_stop_oscillation_in (PyInt 0)))] ∧
    pool w' = pool bench ++
      [Ready (oscillate (PyInt 0) (PyFloat (1 # 10)) (PyBool true));
       Ready (call (Tgt_stop_oscillation_in (PyInt 0))
                [PyFloat (1 # 10); PyInt 1]
                [("start_state", PyBool true); ("final_state", PyBool false)])] ∧
    relays w' = <[Z.to_nat 0 := true]> (relays bench).
Proof.
  apply (timeout_setup_is_synchronous 0 bench 0 false (PyFloat (1 # 10))
           (1 # 10) 1 true false).
  - split; [lia|reflexivity].
  - discriminate.
  - repeat split.
  - reflexivity.
  - lia.
Defined.

(** ** Listing the relays *)

Lemma collect_relays_spec es : ∀ n i acc,
  (i + n = length es)%nat → Forall has_ison es →
  ∃ out,
    collect_relays (JList es) (Z.of_nat i) n acc = Ret (acc ++ out) ∧
    length out = n ∧
    ∀ j e v, es !! (i + j)%nat = Some e → getitem_key e "ison" = inr v →
             (j < n)%nat →
             out !! j = Some (Z.of_nat (i + j), relay_state_of v).
Proof.
  induction n as [|n IH]; intros i acc Hlen Hall.
  - exists []. rewrite app_nil_r. repeat split. intros; lia.
  - destruct (lookup_lt_is_Some_2 es i) as [e He]; [lia|].
    assert (has_ison e) as [v Hv].
    { eapply Forall_lookup_1; eassumption. }
    destruct (IH (S i) (acc ++ [(Z.of_nat i, relay_state_of v)]))
      as (out & Hout & Hl & Hnth); [lia|exact Hall|].
    exists ((Z.of_nat i, relay_state_of v) :: out). split; [|split].
    + cbn [collect_relays getitem_idx index_of].
      rewrite (list_index_nat es (Z.of_nat i) e); [|lia|now rewrite Nat2Z.id].
      cbn [lift]. change (Ret e ≫= ?f) with (f e). cbv beta. rewrite Hv.
      cbn [lift]. change (Ret v ≫= ?f) with (f v). cbv beta.
      replace (Z.of_nat i + 1) with (Z.of_nat (S i)) by lia.
      rewrite Hout, <- app_assoc. reflexivity.
    + simpl. now rewrite Hl.
    + intros [|j] e' v' He' Hv' Hj.
      * rewrite Nat.add_0_r in *. rewrite He in He'. inversion He'; subst.
        rewrite Hv in Hv'. inversion Hv'; subst. reflexivity.
      * simpl. replace (i + S j)%nat with (S i + j)%nat in * by lia.
        apply (Hnth j e' v' He' Hv'). lia.
Qed.

Lemma relays_of_status_spec doc es :
  getitem_key doc "relays" = inr (JList es) → Forall has_ison es →
  ∃ out,
    relays_of_status doc = Ret out ∧ length out = length es ∧
    ∀ i e v, es !! i = Some e → getitem_key e "ison" = inr v →
             out !! i = Some (Z.of_nat i, if json_truthy v then ON else OFF).
Proof.
  intros Hdoc Hall.
  destruct (collect_relays_spec es (length es) 0 []) as (out & H1 & H2 & H3);
    [reflexivity|exact Hall|].
  exists out. split; [|split].
  - unfold relays_of_status. rewrite Hdoc. exact H1.
  - exact H2.
  - intros i e v He Hv. apply (H3 i e v He Hv). eapply lookup_lt_Some, He.
Qed.

(** C10.  get_relays fetches the status document and lists its relays: when
    the document's 'relays' entry is a list of n entries that carry 'ison',
    the result has exactly n pairs, and the i-th pair is (i, ON) if
    relays[i]['ison'] is true and (i, OFF) otherwise. *)
Theorem get_relays_lists_every_relay doc es :
  getitem_key doc "relays" = inr (JList es) → Forall has_ison es →
  get_relays = (status ≫= relays_of_status) ∧
  ∃ out,
    relays_of_status doc = Ret out ∧ length out = length es ∧
    ∀ i e v, es !! i = Some e → getitem_key e "ison" = inr v →
             out !! i = Some (Z.of_nat i, if json_truthy v then ON else OFF).
Proof.
  intros Hdoc Hall. split; [reflexivity|].
  now apply relays_of_status_spec.
Qed.

Lemma get_relays_lists_every_relay_witness :
  get_relays = (status ≫= relays_of_status) ∧
  ∃ out,
    relays_of_status (status_doc [true; false]) = Ret out ∧
    length out = length (relay_doc <$> [true; false]) ∧
    ∀ i e v, (relay_doc <$> [true; false]) !! i = Some e →
             getitem_key e "ison" = inr v →
             out !! i = Some (Z.of_nat i, if json_truthy v then ON else OFF).
Proof.
  apply (get_relays_lists_every_relay (status_doc [true; false])
           (relay_doc <$> [true; false])).
  - apply getitem_relays.
  - repeat constructor; eexists; apply getitem_ison.
Defined.

(** On the device of the bench model, get_relays reports every relay. *)
Lemma get_relays_returns me w :
  ∃ out,
    returns me get_relays w out (asked me w) ∧
    length out = length (relays w) ∧
    ∀ i b, relays w !! i = Some b → out !! i = Some (Z.of_nat i, state_of b).
Proof.
  destruct (relays_of_status_spec (status_doc (relays w))
              (relay_doc <$> relays w)) as (out & H1 & H2 & H3).
  - apply getitem_relays.
  - apply Forall_fmap, Forall_forall. intros b _. eexists. apply getitem_ison.
  - exists out. split; [|split].
    + unfold get_relays. eapply returns_bind.
      * apply (returns_request me GetStatus w (relays w)). reflexivity.
      * rewrite H1. apply returns_ret.
    + now rewrite H2, length_fmap.
    + intros i b Hb.
      rewrite (H3 i (relay_doc b) (JBool b)); [now destruct b| |apply getitem_ison].
      now rewrite list_lookup_fmap, Hb.
Qed.

(** ** The stop flag as a latch *)

Create HintDb quiet.
#[local] Hint Constructors quiet : quiet.

Lemma quiet_bind {A B : Type} (p : prog A) (f : A → prog B) :
  quiet p → (∀ a, quiet (f a)) → quiet (p ≫= f).
Proof.
  intros Hp Hf. unfold mbind, prog_mbind.
  induction Hp; simpl; auto with quiet.
Qed.

Lemma quiet_assert b : quiet (assert_ b).
Proof. destruct b; constructor. Qed.

Lemma quiet_lift {R : Type} (r : exn + R) : quiet (lift r).
Proof. destruct r; constructor. Qed.

Lemma quiet_num v : quiet (num v).
Proof. unfold num. destruct (py_num v); constructor. Qed.

Lemma quiet_to_float v : quiet (to_float v).
Proof.
  destruct v; try apply quiet_num. simpl.
  destruct (Z.abs z <? float_max_int); constructor.
Qed.

Lemma quiet_sleep d : quiet (sleep d).
Proof.
  unfold sleep. apply quiet_bind; [apply quiet_num|]. intros q.
  destruct (Qlt_bool sleep_max q || Qlt_bool q sleep_min); [constructor|].
  destruct (Qlt_bool q 0); auto with quiet.
Qed.

#[local] Hint Resolve quiet_assert quiet_lift quiet_num quiet_to_float
  quiet_sleep : quiet.

Ltac quiet :=
  repeat first
    [ solve [auto with quiet]
    | apply quiet_bind; [|intros ?]
    | match goal with
      | |- quiet (if ?b then _ else _) => destruct b
      | |- quiet (match ?x with _ => _ end) => destruct x
      end
    | constructor; intros ].

Lemma quiet_get_relay_state relay_id : quiet (get_relay_state relay_id).
Proof. unfold get_relay_state, status. quiet. Qed.

Lemma quiet_power relay_id state : quiet (power relay_id state).
Proof. unfold power. quiet. Qed.

#[local] Hint Resolve quiet_get_relay_state quiet_power : quiet.

Lemma quiet_toggle relay_id : quiet (toggle relay_id).
Proof.
  unfold toggle. apply quiet_bind; [apply quiet_assert|]. intros _.
  apply quiet_bind; [apply quiet_get_relay_state|]. intros [|]; apply quiet_power.
Qed.

Lemma quiet_enforce relay_id wanted settle :
  quiet settle → quiet (enforce relay_id wanted settle).
Proof.
  intros Hs. unfold enforce.
  apply quiet_bind; [apply quiet_get_relay_state|]. intros st.
  destruct (py_ne _ _); [|constructor].
  apply quiet_bind; [apply quiet_power|]. intros _. exact Hs.
Qed.

#[local] Hint Resolve quiet_toggle quiet_enforce : quiet.

Lemma quiet_oscillate_loop relay_id period :
  quiet (set_osc 0;;
         While not_stopped (oscillate_body relay_id period) (Ret PyNone)).
Proof.
  unfold set_osc, not_stopped, oscillate_body, get_stop, get_osc.
  apply quiet_bind; [quiet|]. intros _. constructor; quiet.
Qed.

Lemma quiet_cycles_session relay_id period cycles start_state final_state :
  quiet (enforce relay_id start_state (sleep period);;
         set_osc 0;;
         While (cycles_cond cycles) (cycles_body relay_id period)
           (enforce relay_id final_state (Ret tt);; Ret PyNone)).
Proof.
  unfold set_osc, cycles_cond, cycles_body, get_stop, get_osc.
  apply quiet_bind; [quiet|]. intros _.
  apply quiet_bind; [quiet|]. intros _.
  constructor.
  - apply quiet_bind; [quiet|]. intros s. destruct (negb s); quiet.
  - quiet.
  - quiet.
Qed.

Lemma quiet_watcher_session relay_id period timeout final_state :
  quiet (current_epoch ← now;
         While (before_deadline current_epoch timeout)
           (sleep (PyFloat (1 # 10)))
           (set_stop true;;
            sleep period;;
            enforce relay_id final_state (Ret tt);;
            Ret PyNone)).
Proof.
  unfold now, before_deadline, set_stop.
  apply quiet_bind; [quiet|]. intros t. constructor; quiet.
Qed.

Lemma session_opens p : session p → ∃ k, p = SetStop false k ∧ quiet k.
Proof.
  intros [relay_id period|relay_id period cycles start_state final_state
         |relay_id period timeout final_state];
    (eexists; split; [reflexivity|]).
  - apply quiet_oscillate_loop.
  - apply quiet_cycles_session.
  - apply quiet_watcher_session.
Qed.

(** A check that passes or raises, in front of a tame program. *)
Lemma tame_guard (g : prog unit) (p : prog pyval) :
  (g = Ret tt ∨ ∃ e, g = Raise e) → tame (Ready p) → tame (Ready (g;; p)).
Proof.
  intros [->|[e ->]] Hp; [exact Hp|]. left. constructor.
Qed.

Lemma assert_guard b : assert_ b = Ret tt ∨ ∃ e, assert_ b = Raise e.
Proof. destruct b; [now left|right; now eexists]. Qed.

Lemma period_guard period :
  (period_ok period ≫= λ ok, assert_ ok) = Ret tt ∨
  ∃ e, (period_ok period ≫= λ ok, assert_ ok) = Raise e.
Proof.
  unfold period_ok, num. destruct (py_num period); simpl.
  - destruct (Qle_bool _ _); [now left|right; now eexists].
  - right. now eexists.
Qed.

Lemma positive_guard v :
  (positive v ≫= λ ok, assert_ ok) = Ret tt ∨
  ∃ e, (positive v ≫= λ ok, assert_ ok) = Raise e.
Proof.
  unfold positive, num. destruct (py_num v); simpl.
  - destruct (Qlt_bool _ _); [now left|right; now eexists].
  - right. now eexists.
Qed.

Lemma tame_oscillate relay_id period block :
  tame (Ready (oscillate relay_id period block)).
Proof.
  unfold oscillate.
  apply tame_guard; [apply assert_guard|].
  apply tame_guard; [apply assert_guard|].
  apply tame_guard; [apply period_guard|].
  apply tame_guard; [apply assert_guard|].
  destruct (truthy block).
  - right. eexists. split; [reflexivity|]. constructor.
  - left. simpl. quiet.
Qed.

Lemma quiet_oscillate_background relay_id period :
  quiet (oscillate relay_id period (PyBool false)).
Proof. unfold oscillate. cbn [truthy]. quiet. Qed.

Lemma tame_oscillate_timeout
    relay_id period timeout block start_state final_state :
  tame (Ready (oscillate_timeout relay_id period timeout block start_state
                 final_state)).
Proof.
  left. unfold oscillate_timeout, join. simpl.
  pose proof (quiet_oscillate_background relay_id period).
  quiet.
Qed.

Lemma tame_oscillate_cycles
    relay_id period cycles block start_state final_state :
  tame (Ready (oscillate_cycles relay_id period cycles block start_state
                 final_state)).
Proof.
  unfold oscillate_cycles.
  apply tame_guard; [apply assert_guard|].
  apply tame_guard; [apply assert_guard|].
  apply tame_guard; [apply period_guard|].
  apply tame_guard; [apply assert_guard|].
  apply tame_guard; [apply positive_guard|].
  apply tame_guard; [apply assert_guard|].
  apply tame_guard; [apply assert_guard|].
  apply tame_guard; [apply assert_guard|].
  destruct (truthy block).
  - right. eexists. split; [reflexivity|]. constructor.
  - left. simpl. quiet.
Qed.

Lemma tame_call tg args kwargs : tame (Ready (call tg args kwargs)).
Proof.
  unfold call. destruct tg.
  - destruct (bind_args _ _ _) as [[|a [|b [|c [|]]]]|];
      try (left; constructor). apply tame_oscillate.
  - destruct (bind_args _ _ _)
      as [[|a [|b [|c [|d [|e [|f [|]]]]]]]|];
      try (left; constructor). apply tame_oscillate_cycles.
  - destruct (bind_args _ _ _) as [[|a [|b [|c [|]]]]|];
      try (left; constructor).
    right. eexists. split; [reflexivity|]. constructor.
Qed.

Lemma tame_invoke c : tame (Ready (invoke c)).
Proof.
  destruct c; simpl.
  - apply tame_oscillate.
  - apply tame_oscillate_timeout.
  - apply tame_oscillate_cycles.
Qed.

Lemma quiet_stop_oscillation : quiet stop_oscillation.
Proof. unfold stop_oscillation, set_stop. quiet. Qed.

(** A quiet program stays quiet, leaves a set flag set, and starts only
    tame threads. *)
Lemma quiet_step {R : Type} me (p : prog R) w :
  quiet p →
  settled (step me p w).1 ∧
  (stopped w = true → stopped (step me p w).2 = true) ∧
  ∃ extra, pool (step me p w).2 = pool w ++ extra ∧ Forall tame extra.
Proof.
  intros Hq. destruct Hq; simpl.
  1,2,5,6,8: (split; [auto|split; [auto|exists []; now rewrite app_nil_r]]).
  - destruct (respond rq (relays w)) as [e|[rl j]]; simpl;
      (split; [auto|split; [auto|exists []; now rewrite app_nil_r]]).
  - split; [auto|split; [auto|exists []; now rewrite app_nil_r]].
  - split; [auto|split; [auto|exists []; now rewrite app_nil_r]].
  - split; [auto|split; [auto|exists []; now rewrite app_nil_r]].
  - split; [auto|split; [auto|]]. eexists. split; [reflexivity|].
    constructor; [apply tame_call|constructor].
  - split; [auto|split; [auto|exists []; now rewrite app_nil_r]].
  - split; [|split; [auto|exists []; now rewrite app_nil_r]].
    apply quiet_bind; [assumption|]. intros [|]; [|assumption].
    apply quiet_bind; [assumption|]. intros _. now constructor.
Qed.

Lemma tame_advance me (s : thread pyval) w :
  tame s →
  tame (advance me s w).1 ∧
  (∃ extra, pool (advance me s w).2 = pool w ++ extra ∧ Forall tame extra) ∧
  (stopped w = true → stopped (advance me s w).2 = false →
   ∃ p, s = Ready p ∧ session p).
Proof.
  intros [Hs|(p & -> & Hp)].
  - destruct s as [p|u p|t p|r|e]; simpl in *.
    + destruct (quiet_step me p w Hs) as (H1 & H2 & H3).
      split; [now left|split; [exact H3|]]. intros Ht Hf.
      rewrite (H2 Ht) in Hf. discriminate.
    + destruct (Qle_bool u (clock w)); simpl;
        (split; [now left|split; [exists []; now rewrite app_nil_r|congruence]]).
    + destruct (finished w t); simpl;
        (split; [now left|split; [exists []; now rewrite app_nil_r|congruence]]).
    + split; [now left|split; [exists []; now rewrite app_nil_r|congruence]].
    + split; [now left|split; [exists []; now rewrite app_nil_r|congruence]].
  - destruct (session_opens p Hp) as (k & -> & Hk). simpl.
    split; [now left|split; [exists []; now rewrite app_nil_r|]].
    intros _ _. eexists. split; [reflexivity|exact Hp].
Qed.

Lemma tame_act a w :
  Forall tame (pool w) →
  Forall tame (pool (act a w)) ∧
  (stopped w = true → stopped (act a w) = false →
   ∃ t p, a = Run t ∧ pool w !! t = Some (Ready p) ∧ session p).
Proof.
  intros Hall. destruct a as [t|dt]; simpl.
  - destruct (pool w !! t) as [s|] eqn:Es; [|split; [exact Hall|congruence]].
    assert (tame s) as Hs by (eapply Forall_lookup_1; eassumption).
    destruct (tame_advance t s w Hs) as (H1 & (extra & H2 & H3) & H4).
    destruct (advance t s w) as [s' w'] eqn:Ea. simpl in *. split.
    + apply Forall_insert; [|exact H1]. rewrite H2.
      apply Forall_app. split; assumption.
    + intros Ht Hf. destruct (H4 Ht Hf) as (p & -> & Hp).
      exists t, p. repeat split; assumption.
  - destruct (Qle_bool 0 dt); (split; [exact Hall|]); simpl;
      unfold stopped; simpl; congruence.
Qed.

Lemma tame_exec sched : ∀ w,
  Forall tame (pool w) → Forall tame (pool (exec sched w)).
Proof.
  induction sched as [|a sched IH]; intros w Hall; [exact Hall|].
  simpl. apply IH. now apply tame_act.
Qed.

(** C3 (amended).  A newly constructed controller has its stop flag set.
    Every call of the interface and every thread the methods start is
    either quiet or about to open a session, and stays so under every
    schedule; a set flag goes back to False only in the step of a thread
    that opens a session: the blocking body of oscillate or of
    oscillate_cycles, or the watcher of oscillate_timeout.  stop_oscillation
    never clears it. *)
Theorem stop_flag_is_a_latch sched a w :
  Forall tame (pool w) →
  (∀ host_arg tmo, _stop_oscillation (init host_arg tmo) = true) ∧
  quiet stop_oscillation ∧
  (∀ c, tame (Ready (invoke c))) ∧
  (∀ tg args kwargs, tame (Ready (call tg args kwargs))) ∧
  Forall tame (pool (exec sched w)) ∧
  Forall tame (pool (act a w)) ∧
  (stopped w = true → stopped (act a w) = false →
   ∃ t p, a = Run t ∧ pool w !! t = Some (Ready p) ∧ session p).
Proof.
  intros Hall. repeat split.
  - apply quiet_stop_oscillation.
  - apply tame_invoke.
  - apply tame_call.
  - now apply tame_exec.
  - now apply tame_act.
  - now apply tame_act.
Qed.

(** C3, on a controller about to run a blocking oscillate_cycles. *)
Lemma stop_flag_is_a_latch_witness :
  Forall tame
    (pool (exec [Run 0]
             (boot [false]
                (oscillate_cycles (PyInt 0) (PyFloat (1 # 10)) (PyInt 3)
                   (PyBool true) (PyBool true) (PyBool false))))).
Proof.
  refine (proj1 (proj2 (proj2 (proj2 (proj2
    (stop_flag_is_a_latch [Run 0%nat] (Run 0%nat)
       (boot [false]
          (oscillate_cycles (PyInt 0) (PyFloat (1 # 10)) (PyInt 3)
             (PyBool true) (PyBool true) (PyBool false))) _)))))).
  constructor; [|constructor].
  right. eexists. split; [reflexivity|].
  apply (session_cycles (PyInt 0) (PyFloat (1 # 10)) (PyInt 3) (PyBool true)
           (PyBool false)).
Defined.

(** C3 as stated fails at its first half: the flag of a newly constructed
    controller is True, not False. *)
Lemma fresh_controller_flag_is_set :
  _stop_oscillation (init None 1) = true ∧
  _stop_oscillation (init None 1) ≠ false.
Proof. split; [reflexivity|discriminate]. Qed.

(** C1 (the code at a failing input).  oscillate_timeout(0, 0.1, 1,
    block=True, start_state=True, final_state=False) on a relay that is on:
    the watcher dies of a TypeError at its first step, the join ends at
    once, and the call returns at time 0 with the relay on.  Nothing ever
    sets the stop flag: two seconds later the toggle thread is still at
    work and the relay is on again. *)
Theorem timeout_watcher_dies_at_start :
  let w1 := exec until_return (boot [true] (timeout_call true)) in
  let w2 := exec afterwards w1 in
  (pool w1 !! 0%nat = Some (Returned PyNone) ∧
   pool w1 !! 2%nat = Some (Crashed TypeError) ∧
   relays w1 = [true] ∧ clock w1 = 0%Q) ∧
  (finished w2 1 = false ∧ stopped w2 = false ∧ relays w2 = [true] ∧
   clock w2 = 2%Q ∧ turns (trace w2) = 2%nat).
Proof. cbv zeta. repeat split; vm_compute; reflexivity. Qed.

(** C2 (the code at a failing input).  With block=False the call returns
    None, not the handle of the watcher it has started as thread 2; with
    block=True it returns at time 0, the watcher having died at its first
    step, a full timeout and grace period early. *)
Theorem timeout_call_returns_none :
  let w := exec (repeat (Run 0) 4) (boot [true] (timeout_call false)) in
  let w1 := exec until_return (boot [true] (timeout_call true)) in
  (pool w !! 0%nat = Some (Returned PyNone) ∧ length (pool w) = 3%nat ∧
   trace w = [(0%nat, Requested GetStatus); (0%nat, Started 1 Tgt_oscillate);
              (0%nat, Started 2 (Tgt_stop_oscillation_in (PyInt 0)))]) ∧
  (pool w1 !! 0%nat = Some (Returned PyNone) ∧
   pool w1 !! 2%nat = Some (Crashed TypeError) ∧ clock w1 = 0%Q).
Proof. cbv zeta. repeat split; vm_compute; reflexivity. Qed.

(** * Further properties of the methods *)

(** ** Calls that raise *)

Lemma solo_crashed {R : Type} n me e w :
  solo n me (@Crashed R e) w = (Crashed e, w).
Proof. induction n; simpl; auto. Qed.

Lemma solo_then_crashed {A B : Type} me (f : A → prog B) (n : nat) :
  ∀ (s : thread A) (w : world) e w',
    solo n me s w = (Crashed e, w') →
    ∃ m, solo m me (then_ f s) w = (Crashed e, w').
Proof.
  induction n as [|n IH]; intros s w e w' H; simpl in H.
  - inversion H; subst. exists O. reflexivity.
  - destruct s as [p|u p|t p|r0|e0].
    + destruct p; try (
        destruct (advance me (Ready _) (elapse (Ready _) w)) as [s1 w1] eqn:E;
        apply IH in H; destruct H as [m Hm]; exists (S m);
        cbn [solo]; rewrite elapse_then, advance_then by discriminate;
        rewrite E; exact Hm).
      simpl in H. rewrite solo_returned in H. discriminate.
    + destruct (advance me (Asleep u p) (elapse (Asleep u p) w)) as [s1 w1] eqn:E.
      apply IH in H. destruct H as [m Hm]. exists (S m).
      cbn [solo]. rewrite elapse_then, advance_then by discriminate.
      rewrite E. exact Hm.
    + destruct (advance me (Joining t p) (elapse (Joining t p) w)) as [s1 w1] eqn:E.
      apply IH in H. destruct H as [m Hm]. exists (S m).
      cbn [solo]. rewrite elapse_then, advance_then by discriminate.
      rewrite E. exact Hm.
    + simpl in H. rewrite solo_returned in H. discriminate.
    + simpl in H. rewrite solo_crashed in H. inversion H; subst.
      exists O. reflexivity.
Qed.

Lemma raises_raise {R : Type} me e w : raises me (@Raise R e) w e w.
Proof. exists 1%nat. reflexivity. Qed.

Lemma raises_bind_l {A B : Type} me (p : prog A) (f : A → prog B) w e w' :
  raises me p w e w' → raises me (p ≫= f) w e w'.
Proof.
  intros [n Hn]. apply (solo_then_crashed me f) in Hn. exact Hn.
Qed.

Lemma raises_bind_r {A B : Type} me (p : prog A) (f : A → prog B)
    w a w1 e w' :
  returns me p w a w1 → raises me (f a) w1 e w' → raises me (p ≫= f) w e w'.
Proof.
  intros [n Hn] [m Hm]. apply (solo_then me f) in Hn. destruct Hn as [k Hk].
  exists (k + m)%nat. rewrite solo_add. simpl in Hk.
  unfold mbind, prog_mbind. rewrite Hk. exact Hm.
Qed.

Lemma raises_lift {R : Type} me e w : raises me (@lift R (inl e)) w e w.
Proof. apply raises_raise. Qed.

(** ** The constructor *)

(** X1.  Whatever host is given, the controller's host is not empty and its
    base URL is "http://" followed by that host; a host that is given and
    not empty is kept, and no host or an empty one gives 192.168.33.1. *)
Theorem init_base_url host_arg tmo :
  host (init host_arg tmo) ≠ EmptyString ∧
  shelly_base_url (init host_arg tmo) = ("http://" ++ host (init host_arg tmo))%string ∧
  http_timeout (init host_arg tmo) = tmo ∧
  (∀ h, host_arg = Some h → h ≠ EmptyString → host (init host_arg tmo) = h) ∧
  (host_arg = None ∨ host_arg = Some EmptyString →
   host (init host_arg tmo) = "192.168.33.1").
Proof.
  unfold init. destruct host_arg as [h|]; simpl.
  - destruct (String.eqb_spec h EmptyString) as [->|Hne]; simpl.
    + repeat split; try discriminate; try reflexivity.
      intros h [= <-] Hh. now destruct Hh.
    + repeat split; try assumption; try reflexivity.
      * intros h' [= <-] _. reflexivity.
      * intros [H|[= H]]; [discriminate|]. now destruct Hne.
  - repeat split; try discriminate; reflexivity.
Qed.

(** ** The actuator methods *)

(** X2.  get_relay_state, power and toggle reject a relay id that is not an
    int (a bool included), and power rejects a state that is not a bool,
    with an AssertionError raised before any request is sent. *)
Theorem actuator_methods_check_types relay_id state relay_id' state' me w :
  type_is_int relay_id = false → type_is_bool state' = false →
  step me (get_relay_state relay_id) w = (Crashed AssertionError, w) ∧
  step me (power relay_id state) w = (Crashed AssertionError, w) ∧
  step me (toggle relay_id) w = (Crashed AssertionError, w) ∧
  step me (power relay_id' state') w = (Crashed AssertionError, w).
Proof.
  intros Hi Hb. unfold get_relay_state, power, toggle. rewrite Hi, Hb.
  repeat split. destruct (type_is_int relay_id'); reflexivity.
Qed.

Lemma actuator_methods_check_types_witness :
  step 0 (get_relay_state (PyBool true)) bench = (Crashed AssertionError, bench) ∧
  step 0 (power (PyBool true) (PyBool true)) bench = (Crashed AssertionError, bench) ∧
  step 0 (toggle (PyBool true)) bench = (Crashed AssertionError, bench) ∧
  step 0 (power (PyInt 0) (PyInt 1)) bench = (Crashed AssertionError, bench).
Proof.
  apply (actuator_methods_check_types (PyBool true) (PyBool true) (PyInt 0)
           (PyInt 1) 0 bench); reflexivity.
Defined.

Lemma list_index_negative {X : Type} (l : list X) z x :
  z < 0 → 0 ≤ z + Z.of_nat (length l) →
  l !! Z.to_nat (z + Z.of_nat (length l)) = Some x →
  list_index l z = inr x.
Proof.
  intros Hz Hn Hl. unfold list_index.
  assert ((z <? 0) = true) as -> by now apply Z.ltb_lt.
  assert ((0 <=? z + Z.of_nat (length l))
          && (z + Z.of_nat (length l) <? Z.of_nat (length l)) = true) as ->.
  { apply andb_true_intro. split; [apply Z.leb_le|apply Z.ltb_lt]; lia. }
  now rewrite Hl.
Qed.

Lemma list_index_out {X : Type} (l : list X) z :
  z < - Z.of_nat (length l) ∨ Z.of_nat (length l) ≤ z →
  list_index l z = inl IndexError.
Proof.
  intros Hz. unfold list_index.
  destruct (z <? 0) eqn:E.
  - apply Z.ltb_lt in E.
    destruct ((0 <=? z + Z.of_nat (length l))
              && (z + Z.of_nat (length l) <? Z.of_nat (length l))) eqn:E2;
      [|reflexivity].
    apply andb_prop in E2 as [E2 _]. apply Z.leb_le in E2. lia.
  - apply Z.ltb_ge in E.
    destruct ((0 <=? z) && (z <? Z.of_nat (length l))) eqn:E2; [|reflexivity].
    apply andb_prop in E2 as [_ E2]. apply Z.ltb_lt in E2. lia.
Qed.

(** X3.  get_relay_state takes a negative id as Python indexing does: with
    n relays, id z in -n..-1 reads relay n+z.  It costs one status request
    and leaves the device as it is. *)
Theorem get_relay_state_negative_id me w z b :
  z < 0 → 0 ≤ z + Z.of_nat (length (relays w)) →
  relays w !! Z.to_nat (z + Z.of_nat (length (relays w))) = Some b →
  returns me (get_relay_state (PyInt z)) w (state_of b) (asked me w) ∧
  relays (asked me w) = relays w ∧
  trace (asked me w) = trace w ++ [(me, Requested GetStatus)].
Proof.
  intros Hz Hn Hb. split; [|split; reflexivity].
  unfold get_relay_state.
  eapply returns_bind; [apply returns_assert|].
  eapply returns_bind.
  { apply (returns_request me GetStatus w (relays w) (status_doc (relays w))).
    reflexivity. }
  rewrite getitem_relays. eapply returns_bind; [apply returns_lift|].
  assert (getitem_idx (JList (relay_doc <$> relays w)) (PyInt z)
          = inr (relay_doc b)) as ->.
  { simpl. apply list_index_negative; rewrite ?length_fmap; try assumption.
    now rewrite list_lookup_fmap, Hb. }
  eapply returns_bind; [apply returns_lift|].
  rewrite getitem_ison. eapply returns_bind; [apply returns_lift|].
  destruct b; apply returns_ret.
Qed.

Lemma get_relay_state_negative_id_witness :
  returns 0 (get_relay_state (PyInt (-1))) bench (state_of false) (asked 0 bench) ∧
  relays (asked 0 bench) = relays bench ∧
  trace (asked 0 bench) = trace bench ++ [(0%nat, Requested GetStatus)].
Proof.
  apply (get_relay_state_negative_id 0 bench (-1) false).
  - lia.
  - simpl. lia.
  - reflexivity.
Defined.

(** X4.  get_relay_state on an id the device does not have (z >= n or
    z < -n) raises IndexError after its status request; the device is as it
    was. *)
Theorem get_relay_state_out_of_range me w z :
  z < - Z.of_nat (length (relays w)) ∨ Z.of_nat (length (relays w)) ≤ z →
  raises me (get_relay_state (PyInt z)) w IndexError (asked me w) ∧
  relays (asked me w) = relays w.
Proof.
  intros Hz. split; [|reflexivity]. unfold get_relay_state.
  eapply raises_bind_r; [apply returns_assert|].
  eapply raises_bind_r.
  { apply (returns_request me GetStatus w (relays w) (status_doc (relays w))).
    reflexivity. }
  rewrite getitem_relays. eapply raises_bind_r; [apply returns_lift|].
  assert (getitem_idx (JList (relay_doc <$> relays w)) (PyInt z)
          = inl IndexError) as ->.
  { simpl. apply list_index_out. now rewrite length_fmap. }
  apply raises_bind_l, raises_lift.
Qed.

Lemma get_relay_state_out_of_range_witness :
  raises 0 (get_relay_state (PyInt 1)) bench IndexError (asked 0 bench) ∧
  relays (asked 0 bench) = relays bench.
Proof.
  apply (get_relay_state_out_of_range 0 bench 1). right. simpl. lia.
Defined.

(** X5.  A state set with power is the state get_relay_state reads back,
    and no other relay of the device has changed. *)
Theorem power_then_get_relay_state me w z b0 b :
  relay_at w z b0 →
  ∃ w',
    returns me (power (PyInt z) (PyBool b);; get_relay_state (PyInt z)) w
      (state_of b) w' ∧
    relays w' = <[Z.to_nat z := b]> (relays w) ∧
    (∀ j, j ≠ Z.to_nat z → relays w' !! j = relays w !! j) ∧
    trace w' = trace w ++ [(me, Requested (GetRelay (PyInt z) (turn b)));
                           (me, Requested GetStatus)].
Proof.
  intros Hr. exists (asked me (turned me z b w)). split; [|split; [|split]].
  - eapply returns_bind; [eapply power_returns, Hr|].
    apply get_relay_state_returns.
    eapply relay_at_insert; [exact Hr|reflexivity].
  - reflexivity.
  - intros j Hj. simpl. now apply list_lookup_insert_ne.
  - simpl. now rewrite <- app_assoc.
Qed.

Lemma power_then_get_relay_state_witness :
  ∃ w',
    returns 0 (power (PyInt 0) (PyBool true);; get_relay_state (PyInt 0)) bench
      (state_of true) w' ∧
    relays w' = <[Z.to_nat 0 := true]> (relays bench) ∧
    (∀ j, j ≠ Z.to_nat 0 → relays w' !! j = relays bench !! j) ∧
    trace w' = trace bench ++ [(0%nat, Requested (GetRelay (PyInt 0) (turn true)));
                               (0%nat, Requested GetStatus)].
Proof.
  apply (power_then_get_relay_state 0 bench 0 false true).
  split; [lia|reflexivity].
Defined.

(** X6.  toggle reports the opposite of the state it found, and two toggles
    in a row report the state found first and leave the device as it was,
    at the cost of four requests. *)
Theorem toggle_twice me w z b :
  relay_at w z b →
  ∃ w1 w2,
    returns me (toggle (PyInt z)) w (state_of (negb b)) w1 ∧
    relays w1 = <[Z.to_nat z := negb b]> (relays w) ∧
    returns me (toggle (PyInt z);; toggle (PyInt z)) w (state_of b) w2 ∧
    relays w2 = relays w ∧
    trace w2 = trace w ++ toggled me z b ++ toggled me z (negb b).
Proof.
  intros Hr.
  set (w1 := turned me z (negb b) (asked me w)).
  assert (relay_at w1 z (negb b)) as Hr1.
  { eapply relay_at_insert; [exact Hr|reflexivity]. }
  exists w1, (turned me z (negb (negb b)) (asked me w1)).
  split; [|split; [|split; [|split]]].
  - apply toggle_returns, Hr.
  - reflexivity.
  - eapply returns_bind; [apply toggle_returns, Hr|].
    replace (state_of b) with (state_of (negb (negb b)))
      by now rewrite negb_involutive.
    apply toggle_returns, Hr1.
  - simpl. rewrite list_insert_insert_eq, negb_involutive.
    apply list_insert_id, Hr.
  - simpl. rewrite <- !app_assoc. reflexivity.
Qed.

Lemma toggle_twice_witness :
  ∃ w1 w2,
    returns 0 (toggle (PyInt 0)) bench (state_of (negb false)) w1 ∧
    relays w1 = <[Z.to_nat 0 := negb false]> (relays bench) ∧
    returns 0 (toggle (PyInt 0);; toggle (PyInt 0)) bench (state_of false) w2 ∧
    relays w2 = relays bench ∧
    trace w2 = trace bench ++ toggled 0 0 false ++ toggled 0 0 (negb false).
Proof.
  apply (toggle_twice 0 bench 0 false). split; [lia|reflexivity].
Defined.

(** ** Listing the relays: what goes wrong *)

Lemma collect_relays_fails es err : ∀ n i j e acc,
  es !! (i + j)%nat = Some e → getitem_key e "ison" = inl err →
  (j < n)%nat →
  (∀ k, (i ≤ k < i + j)%nat → ∃ e', es !! k = Some e' ∧ has_ison e') →
  collect_relays (JList es) (Z.of_nat i) n acc = Raise err.
Proof.
  induction n as [|n IH]; intros i j e acc He Herr Hj Hbefore; [lia|].
  destruct j as [|j].
  - rewrite Nat.add_0_r in He. cbn [collect_relays getitem_idx index_of].
    rewrite (list_index_nat es (Z.of_nat i) e); [|lia|now rewrite Nat2Z.id].
    cbn [lift]. change (Ret e ≫= ?f) with (f e). cbv beta. rewrite Herr.
    reflexivity.
  - destruct (Hbefore i) as (e' & He' & v & Hv); [lia|].
    cbn [collect_relays getitem_idx index_of].
    rewrite (list_index_nat es (Z.of_nat i) e'); [|lia|now rewrite Nat2Z.id].
    cbn [lift]. change (Ret e' ≫= ?f) with (f e'). cbv beta. rewrite Hv.
    cbn [lift]. change (Ret v ≫= ?f) with (f v). cbv beta.
    replace (Z.of_nat i + 1) with (Z.of_nat (S i)) by lia.
    apply (IH (S i) j e).
    + now replace (S i + j)%nat with (i + S j)%nat by lia.
    + exact Herr.
    + lia.
    + intros k Hk. apply Hbefore. lia.
Qed.

(** X7.  get_relays returns nothing partial: when an entry of 'relays' has
    no readable 'ison' (the key is missing, or the entry is not an object)
    and the entries before it have one, the listing raises the error of
    that entry (KeyError or TypeError); a document without 'relays' raises
    KeyError, and an empty 'relays' list gives the empty list. *)
Theorem get_relays_incomplete_document doc es i e err :
  getitem_key doc "relays" = inr (JList es) →
  es !! i = Some e → getitem_key e "ison" = inl err →
  Forall has_ison (take i es) →
  relays_of_status doc = Raise err ∧
  (∀ d, d !! "relays" = None → relays_of_status (JDict d) = Raise KeyError) ∧
  (∀ d, d !! "relays" = Some (JList []) → relays_of_status (JDict d) = Ret []).
Proof.
  intros Hdoc He Herr Hall. split; [|split].
  - unfold relays_of_status. rewrite Hdoc. cbn [lift].
    change (Ret (JList es) ≫= ?f) with (f (JList es)). cbv beta.
    cbn [len lift]. change (Ret (length es) ≫= ?f) with (f (length es)).
    cbv beta. apply (collect_relays_fails es err (length es) 0 i e []).
    + exact He.
    + exact Herr.
    + eapply lookup_lt_Some, He.
    + intros k Hk.
      destruct (lookup_lt_is_Some_2 es k) as [e' He'].
      { apply lookup_lt_Some in He. lia. }
      exists e'. split; [exact He'|].
      eapply (Forall_lookup_1 _ (take i es) k); [exact Hall|].
      rewrite lookup_take_lt by lia. exact He'.
  - intros d Hd. unfold relays_of_status, getitem_key. now rewrite Hd.
  - intros d Hd. unfold relays_of_status, getitem_key. now rewrite Hd.
Qed.

Lemma get_relays_incomplete_document_witness :
  relays_of_status (JDict {[ "relays" := JList [relay_doc true; JNull] ]})
  = Raise TypeError ∧
  (∀ d, d !! "relays" = None → relays_of_status (JDict d) = Raise KeyError) ∧
  (∀ d, d !! "relays" = Some (JList []) → relays_of_status (JDict d) = Ret []).
Proof.
  apply (get_relays_incomplete_document
           (JDict {[ "relays" := JList [relay_doc true; JNull] ]})
           [relay_doc true; JNull] 1 JNull TypeError).
  - unfold getitem_key. now rewrite lookup_singleton_eq.
  - reflexivity.
  - reflexivity.
  - repeat constructor. eexists. apply getitem_ison.
Defined.

(** X8.  On the device, get_relays costs one status request, changes no
    relay, and reports every relay with its index and its state, in
    order. *)
Theorem get_relays_on_device me w :
  ∃ out,
    returns me get_relays w out (asked me w) ∧
    relays (asked me w) = relays w ∧
    trace (asked me w) = trace w ++ [(me, Requested GetStatus)] ∧
    length out = length (relays w) ∧
    ∀ i b, relays w !! i = Some b → out !! i = Some (Z.of_nat i, state_of b).
Proof.
  destruct (get_relays_returns me w) as (out & H1 & H2 & H3).
  exists out. repeat split; assumption.
Qed.

(** ** Timeout mode *)

(** X9.  The watcher thread that oscillate_timeout starts never gets into
    its body, whatever the arguments: the call does not fit the signature of
    the nested function, and the thread's one step is a TypeError that
    leaves the stop flag, the device and the trace as they were.  Handed
    final_state alone, the same target would run the watcher's body. *)
Theorem watcher_thread_cannot_start
    relay_id period timeout start_state final_state me w :
  step me
    (call (Tgt_stop_oscillation_in relay_id) [period; timeout]
       [("start_state", start_state); ("final_state", final_state)]) w
  = (Crashed TypeError, w) ∧
  call (Tgt_stop_oscillation_in relay_id) [period; timeout]
    [("final_state", final_state)]
  = _stop_oscillation_in relay_id period timeout final_state.
Proof. split; reflexivity. Qed.

(** X10.  When the relay is already in the start state, oscillate_timeout
    sends no command and does not sleep before it starts its threads: the
    caller's effects are one status request and the two thread starts, the
    device is as it was and the clock has not moved. *)
Theorem timeout_no_setup_at_start_state me w z period q t start final :
  relay_at w z start → period_is period q → 0 < t →
  ∃ w',
    returns me
      (oscillate_timeout (PyInt z) period (PyInt t) (PyBool false)
         (PyBool start) (PyBool final)) w PyNone w' ∧
    trace w' = trace w ++
      [(me, Requested GetStatus);
       (me, Started (length (pool w)) Tgt_oscillate);
       (me, Started (S (length (pool w))) (Tgt_stop_oscillation_in (PyInt z)))] ∧
    relays w' = relays w ∧ clock w' = clock w.
Proof.
  intros Hr Hp Ht.
  eexists. split; [|split; [|split]].
  - unfold oscillate_timeout.
    eapply returns_bind; [apply returns_assert|].
    destruct Hp as (Hty & Hq & Hge). rewrite Hty.
    eapply returns_bind; [apply returns_assert|].
    rewrite (period_ok_pass period q) by (repeat split; assumption).
    eapply returns_bind; [apply returns_ret|].
    eapply returns_bind; [apply returns_assert|].
    rewrite positive_pass by assumption.
    eapply returns_bind; [apply returns_ret|].
    eapply returns_bind; [apply returns_assert|].
    eapply returns_bind; [apply returns_assert|].
    eapply returns_bind; [apply (enforce_nothing_returns me z w start), Hr|].
    eapply returns_bind.
    { apply (oscillate_background me _ z period q). repeat split; assumption. }
    eapply returns_bind; [apply returns_Start|].
    cbn [truthy].
    eapply returns_bind; [apply returns_ret|apply returns_ret].
  - cbn [trace record with_pool pool asked]. rewrite <- !app_assoc, length_app.
    cbn [length]. rewrite Nat.add_1_r. reflexivity.
  - reflexivity.
  - reflexivity.
Qed.

Lemma timeout_no_setup_at_start_state_witness :
  ∃ w',
    returns 0
      (oscillate_timeout (PyInt 0) (PyFloat (1 # 10)) (PyInt 1) (PyBool false)
         (PyBool false) (PyBool false)) bench PyNone w' ∧
    trace w' = trace bench ++
      [(0%nat, Requested GetStatus);
       (0%nat, Started (length (pool bench)) Tgt_oscillate);
       (0%nat, Started (S (length (pool bench)))
                 (Tgt_stop_oscillation_in (PyInt 0)))] ∧
    relays w' = relays bench ∧ clock w' = clock bench.
Proof.
  apply (timeout_no_setup_at_start_state 0 bench 0 (PyFloat (1 # 10)) (1 # 10)
           1 false false).
  - split; [lia|reflexivity].
  - repeat split.
  - lia.
Defined.

(** X11.  oscillate_timeout does not check the type of start_state.  A
    start_state that is not a bool and differs from the relay's state gets
    past the parameter checks and fails only in power, with an
    AssertionError raised after the status request has been sent;
    oscillate_cycles rejects the same arguments before any request. *)
Theorem timeout_checks_start_state_late
    me w z b0 period q t blk start_state final :
  relay_at w z b0 → period_is period q → 0 < t →
  type_is_bool start_state = false → py_ne (PyBool b0) start_state = true →
  raises me
    (oscillate_timeout (PyInt z) period (PyInt t) (PyBool blk) start_state
       (PyBool final)) w AssertionError (asked me w) ∧
  trace (asked me w) = trace w ++ [(me, Requested GetStatus)] ∧
  step me
    (oscillate_cycles (PyInt z) period (PyInt t) (PyBool blk) start_state
       (PyBool final)) w
  = (Crashed AssertionError, w).
Proof.
  intros Hr Hp Ht Hb Hne. split; [|split; [reflexivity|]].
  - unfold oscillate_timeout.
    eapply raises_bind_r; [apply returns_assert|].
    destruct Hp as (Hty & Hq & Hge). rewrite Hty.
    eapply raises_bind_r; [apply returns_assert|].
    rewrite (period_ok_pass period q) by (repeat split; assumption).
    eapply raises_bind_r; [apply returns_ret|].
    eapply raises_bind_r; [apply returns_assert|].
    rewrite positive_pass by assumption.
    eapply raises_bind_r; [apply returns_ret|].
    eapply raises_bind_r; [apply returns_assert|].
    eapply raises_bind_r; [apply returns_assert|].
    apply raises_bind_l. unfold enforce.
    eapply raises_bind_r; [apply get_relay_state_returns, Hr|].
    assert (value (state_of b0) = b0) as -> by now destruct b0.
    rewrite Hne. apply raises_bind_l. unfold power.
    eapply raises_bind_r; [apply returns_assert|].
    rewrite Hb. apply raises_bind_l, raises_raise.
  - unfold oscillate_cycles. destruct Hp as (Hty & Hq & Hge). rewrite Hty.
    rewrite (period_ok_pass period q) by (repeat split; assumption).
    rewrite positive_pass by assumption. rewrite Hb. reflexivity.
Qed.

Lemma timeout_checks_start_state_late_witness :
  raises 0
    (oscillate_timeout (PyInt 0) (PyFloat (1 # 10)) (PyInt 1) (PyBool true)
       (PyInt 1) (PyBool false)) bench AssertionError (asked 0 bench) ∧
  trace (asked 0 bench) = trace bench ++ [(0%nat, Requested GetStatus)] ∧
  step 0
    (oscillate_cycles (PyInt 0) (PyFloat (1 # 10)) (PyInt 1) (PyBool true)
       (PyInt 1) (PyBool false)) bench
  = (Crashed AssertionError, bench).
Proof.
  apply (timeout_checks_start_state_late 0 bench 0 false (PyFloat (1 # 10))
           (1 # 10) 1 true (PyInt 1) false).
  - split; [lia|reflexivity].
  - repeat split.
  - lia.
  - reflexivity.
  - reflexivity.
Defined.

(** ** The loops and the stop flag *)

(** X12.  Found set when the loop condition is read, the stop flag ends
    either loop without another toggle: the loop of oscillate returns and
    leaves the relay where it is, the loop of oscillate_cycles still
    enforces final_state before it returns, whatever the count so far. *)
Theorem set_flag_ends_the_loops me w z b period cycles final :
  stopped w = true → relay_at w z b →
  returns me
    (While not_stopped (oscillate_body (PyInt z) period) (Ret PyNone))
    w PyNone w ∧
  returns me
    (While (cycles_cond cycles) (cycles_body (PyInt z) period)
       (enforce (PyInt z) (PyBool final) (Ret tt);; Ret PyNone))
    w PyNone (enforced me z b final None w) ∧
  relays (enforced me z b final None w) = <[Z.to_nat z := final]> (relays w) ∧
  trace (enforced me z b final None w) = trace w ++ forced me z b final None.
Proof.
  intros Hs Hr. split; [|split; [|split]].
  - eapply returns_while_false; [|apply returns_ret].
    unfold not_stopped. eapply returns_bind; [apply returns_get_stop|].
    rewrite Hs. apply returns_ret.
  - eapply returns_while_false.
    + unfold cycles_cond. eapply returns_bind; [apply returns_get_stop|].
      rewrite Hs. apply returns_ret.
    + eapply returns_bind; [apply enforce_returns, Hr|apply returns_ret].
  - apply enforced_relays, Hr.
  - apply enforced_trace.
Qed.

Lemma set_flag_ends_the_loops_witness :
  returns 0
    (While not_stopped (oscillate_body (PyInt 0) (PyFloat (1 # 10)))
       (Ret PyNone)) bench PyNone bench ∧
  returns 0
    (While (cycles_cond (PyInt 3)) (cycles_body (PyInt 0) (PyFloat (1 # 10)))
       (enforce (PyInt 0) (PyBool true) (Ret tt);; Ret PyNone))
    bench PyNone (enforced 0 0 false true None bench) ∧
  relays (enforced 0 0 false true None bench)
  = <[Z.to_nat 0 := true]> (relays bench) ∧
  trace (enforced 0 0 false true None bench)
  = trace bench ++ forced 0 0 false true None.
Proof.
  apply (set_flag_ends_the_loops 0 bench 0 false (PyFloat (1 # 10)) (PyInt 3)
           true).
  - reflexivity.
  - split; [lia|reflexivity].
Defined.

(** ** How long a cycle run takes *)

Lemma after_sleep_clock me d w :
  (0 < d)%Q → clock (after_sleep me d w) = (clock w + d)%Q.
Proof.
  intros Hd. unfold after_sleep.
  assert (Qle_bool (clock w + d) (clock w) = false) as ->; [|reflexivity].
  apply not_true_iff_false. rewrite Qle_bool_iff. lra.
Qed.

Lemma period_positive period q : period_is period q → (0 < q)%Q.
Proof.
  intros (_ & _ & Hge). apply Qle_bool_iff in Hge.
  eapply Qlt_le_trans; [|exact Hge]. reflexivity.
Qed.

Section Rounds.
Context (me : nat) (z : Z) (period : pyval) (q : Q).
Hypothesis Hperiod : period_is period q.
Hypothesis Hsleep : sleepable q.

Lemma cycle_round_clock b w :
  clock (cycle_round me z q b w) = (clock w + q)%Q.
Proof.
  unfold cycle_round. simpl.
  rewrite after_sleep_clock by (eapply period_positive, Hperiod). reflexivity.
Qed.

Lemma after_rounds_facts n : ∀ b w,
  stopped (after_rounds me z q b n w) = stopped w ∧
  clock (after_rounds me z q b n w) == clock w + inject_Z (Z.of_nat n) * q ∧
  counter (after_rounds me z q b n w)
    == counter w + inject_Z (Z.of_nat n) * (1 # 2) ∧
  trace (after_rounds me z q b n w) = trace w ++ rounds me z q b n ∧
  pool (after_rounds me z q b n w) = pool w.
Proof.
  induction n as [|n IH]; intros b w.
  - cbn [after_rounds rounds]. change (inject_Z (Z.of_nat 0)) with 0%Q.
    repeat split; try reflexivity; try lra. now rewrite app_nil_r.
  - assert (inject_Z (Z.of_nat (S n)) == inject_Z (Z.of_nat n) + 1) as Hn.
    { rewrite Nat2Z.inj_succ. unfold Z.succ. now rewrite inject_Z_plus. }
    destruct (IH (negb b) (cycle_round me z q b w))
      as (H1 & H2 & H3 & H4 & H5).
    cbn [after_rounds]. repeat split.
    + now rewrite H1, cycle_round_stopped.
    + rewrite H2, cycle_round_clock, Hn. lra.
    + rewrite H3, cycle_round_counter, Hn. lra.
    + rewrite H4, cycle_round_trace. cbn [rounds]. now rewrite <- !app_assoc.
    + now rewrite H5, cycle_round_pool.
Qed.

Lemma after_rounds_relays n : ∀ b w,
  relay_at w z b →
  relays (after_rounds me z q b n w)
  = <[Z.to_nat z := Nat.iter n negb b]> (relays w).
Proof.
  induction n as [|n IH]; intros b w Hr.
  - cbn [after_rounds Nat.iter nat_rect]. symmetry. apply list_insert_id, Hr.
  - cbn [after_rounds]. rewrite IH.
    + rewrite cycle_round_relays, list_insert_insert_eq.
      now rewrite Nat.iter_succ_r.
    + eapply relay_at_insert; [exact Hr|]. apply cycle_round_relays.
Qed.

(** [n] half-cycles short of [c], the loop runs into [after_rounds]. *)
Lemma cycles_loop_runs c n : ∀ w b,
  relay_at w z b → stopped w = false →
  counter w + inject_Z (Z.of_nat n) * (1 # 2) == inject_Z c →
  ∀ (R : Type) (k : prog R) r w'',
    returns me k (after_rounds me z q b n w) r w'' →
    returns me
      (While (cycles_cond (PyInt c)) (cycles_body (PyInt z) period) k) w r w''.
Proof.
  induction n as [|n IH]; intros w b Hr Hs Hc R k r w'' Hk.
  - change (inject_Z (Z.of_nat 0)) with 0%Q in Hc.
    eapply returns_while_false; [|exact Hk].
    assert (Qlt_bool (counter w) (inject_Z c) = false) as <-.
    { apply negb_false_iff, Qle_bool_iff. lra. }
    now apply cycles_cond_returns.
  - assert (inject_Z (Z.of_nat (S n)) == inject_Z (Z.of_nat n) + 1) as Hn.
    { rewrite Nat2Z.inj_succ. unfold Z.succ. now rewrite inject_Z_plus. }
    assert (0 <= inject_Z (Z.of_nat n))%Q as Hpos.
    { rewrite <- (Zle_Qle 0). lia. }
    rewrite Hn in Hc. eapply returns_while_true.
    + assert (Qlt_bool (counter w) (inject_Z c) = true) as <-.
      { apply negb_true_iff. apply not_true_iff_false.
        rewrite Qle_bool_iff. lra. }
      now apply cycles_cond_returns.
    + apply (cycles_body_returns me z period q Hperiod Hsleep), Hr.
    + apply (IH (cycle_round me z q b w) (negb b)).
      * eapply relay_at_insert; [exact Hr|]. apply cycle_round_relays.
      * now rewrite cycle_round_stopped.
      * rewrite cycle_round_counter. lra.
      * exact Hk.
Qed.
End Rounds.

Lemma iter_negb_even n (b : bool) : Nat.iter (2 * n) negb b = b.
Proof.
  induction n as [|n IHn]; [reflexivity|].
  replace (2 * S n)%nat with (S (S (2 * n))) by lia.
  cbn [Nat.iter nat_rect]. fold (Nat.iter (2 * n) negb b).
  rewrite IHn. apply negb_involutive.
Qed.

Lemma enforced_clock me z b wanted settle w :
  (∀ d, settle = Some d → (0 < d)%Q) →
  clock (enforced me z b wanted settle w)
  = if Bool.eqb b wanted then clock w
    else match settle with Some d => (clock w + d)%Q | None => clock w end.
Proof.
  intros Hd. unfold enforced. destruct (Bool.eqb b wanted); [reflexivity|].
  destruct settle as [d|]; [|reflexivity].
  rewrite after_sleep_clock by now apply Hd. reflexivity.
Qed.

Lemma sleeps_app tr1 tr2 : sleeps (tr1 ++ tr2) = sleeps tr1 ++ sleeps tr2.
Proof. apply omap_app. Qed.

Lemma sleeps_rounds me z d b n : sleeps (rounds me z d b n) = repeat d n.
Proof.
  revert b. induction n as [|n IH]; intros b; [reflexivity|].
  cbn [rounds repeat]. rewrite !sleeps_app, IH. reflexivity.
Qed.

Lemma sleeps_forced me z b wanted settle :
  sleeps (forced me z b wanted settle)
  = if Bool.eqb b wanted then []
    else match settle with Some d => [d] | None => [] end.
Proof.
  unfold forced. destruct (Bool.eqb b wanted); [reflexivity|].
  destruct settle; reflexivity.
Qed.

(** X13.  A blocking oscillate_cycles that runs alone on the controller
    (period at most 2^32 s, cycles at most 2^52) returns None with the stop
    flag still False: the loop ends on the count and never sets the flag.
    It sleeps exactly 2*cycles times, one period each, after one settling
    sleep of a period when the relay had to be brought to the start state,
    and not at all while it enforces the final state. *)
Theorem oscillate_cycles_duration me w z b0 period q c start final :
  relay_at w z b0 → period_is period q → sleepable q → 0 < c ≤ 2 ^ 52 →
  ∃ w',
    returns me
      (oscillate_cycles (PyInt z) period (PyInt c) (PyBool true)
         (PyBool start) (PyBool final)) w PyNone w' ∧
    stopped w' = false ∧
    sleeps (trace w')
    = sleeps (trace w) ++ (if Bool.eqb b0 start then [] else [q])
        ++ repeat q (Z.to_nat (2 * c)).
Proof.
  intros Hr Hp Hsl [Hc _].
  set (w1 := enforced me z b0 start (Some q) (with_stop false w)).
  set (w2 := with_counter 0 w1).
  set (n := Z.to_nat (2 * c)).
  set (w3 := after_rounds me z q start n w2).
  assert (relays w2 = <[Z.to_nat z := start]> (relays w)) as Hrel2.
  { unfold w2, w1. simpl. rewrite enforced_relays; [reflexivity|apply Hr]. }
  assert (relay_at w2 z start) as Hr2.
  { eapply relay_at_insert; [exact Hr|exact Hrel2]. }
  assert (stopped w2 = false) as Hs2.
  { unfold w2, w1, stopped. simpl. now rewrite enforced_self. }
  destruct (after_rounds_facts me z period q Hp n start w2)
    as (H1 & H2 & H3 & H4 & H5).
  fold w3 in H1, H2, H3, H4, H5.
  assert (relay_at w3 z start) as Hr3.
  { eapply relay_at_insert; [exact Hr2|]. unfold w3.
    rewrite (after_rounds_relays me z q n start w2 Hr2).
    unfold n. replace (Z.to_nat (2 * c)) with (2 * Z.to_nat c)%nat by lia.
    now rewrite iter_negb_even. }
  exists (enforced me z start final None w3). split; [|split].
  - unfold oscillate_cycles.
    eapply returns_bind; [apply returns_assert|].
    destruct Hp as (Ht & Hq & Hge). rewrite Ht.
    eapply returns_bind; [apply returns_assert|].
    rewrite (period_ok_pass period q) by (repeat split; assumption).
    eapply returns_bind; [apply returns_ret|].
    eapply returns_bind; [apply returns_assert|].
    rewrite positive_pass by assumption.
    eapply returns_bind; [apply returns_ret|].
    eapply returns_bind; [apply returns_assert|].
    eapply returns_bind; [apply returns_assert|].
    eapply returns_bind; [apply returns_assert|].
    cbn [truthy].
    eapply returns_bind; [apply returns_set_stop|].
    eapply returns_bind.
    { apply (enforce_settle_returns me z (with_stop false w) b0 start
               period q); [exact Hr| |exact Hsl].
      repeat split; assumption. }
    eapply returns_bind; [apply returns_set_osc|].
    apply (cycles_loop_runs me z period q (conj Ht (conj Hq Hge)) Hsl c n w2
             start Hr2 Hs2).
    + change (counter w2) with 0%Q. unfold n. rewrite Z2Nat.id by lia.
      rewrite inject_Z_mult. change (inject_Z 2) with 2%Q. lra.
    + eapply returns_bind; [apply enforce_returns, Hr3|].
      apply returns_ret.
  - unfold stopped. rewrite enforced_self. fold (stopped w3).
    now rewrite H1.
  - rewrite enforced_trace, H4. unfold w2, w1. cbn [trace with_counter].
    rewrite enforced_trace. cbn [trace with_stop].
    rewrite !sleeps_app, !sleeps_forced, sleeps_rounds.
    destruct (Bool.eqb start final); now rewrite app_nil_r, <- app_assoc.
Qed.

Lemma oscillate_cycles_duration_witness :
  ∃ w',
    returns 0
      (oscillate_cycles (PyInt 0) (PyFloat (1 # 10)) (PyInt 3) (PyBool true)
         (PyBool true) (PyBool false)) bench PyNone w' ∧
    stopped w' = false ∧
    sleeps (trace w')
    = sleeps (trace bench) ++ (if Bool.eqb false true then [] else [1 # 10])
        ++ repeat (1 # 10) (Z.to_nat (2 * 3)).
Proof.
  apply (oscillate_cycles_duration 0 bench 0 false (PyFloat (1 # 10)) (1 # 10)
           3 true false).
  - split; [lia|reflexivity].
  - repeat split.
  - reflexivity.
  - split; [lia|]. apply Z.leb_le. reflexivity.
Defined.

(** ** The watcher's body *)








(** ** The unbounded loop, left alone *)

Lemma solo_then_inv {A B : Type} me (f : A → prog B) (n : nat) :
  ∀ (s : thread A) (w : world) (r : B) w',
    solo n me (then_ f s) w = (Returned r, w') →
    ∃ a w1 k,
      (∃ m, solo m me s w = (Returned a, w1)) ∧ (k ≤ n)%nat ∧
      solo k me (Ready (f a)) w1 = (Returned r, w').
Proof.
  induction n as [|n IH]; intros s w r w' H.
  - simpl in H. destruct s; discriminate.
  - destruct s as [p|u p|t p|a|e].
    + destruct p; try (
        cbn [solo] in H; rewrite elapse_then, advance_then in H by discriminate;
        destruct (advance me (Ready _) (elapse (Ready _) w)) as [s1 w1] eqn:E;
        cbn [fst snd] in H; apply IH in H;
        destruct H as (a' & w2 & fuel' & [m Hm] & Hk & Hr);
        exists a', w2, fuel'; split;
          [exists (S m); cbn [solo]; rewrite E; exact Hm|split; [lia|exact Hr]]).
      exists r0, w, (S n). split; [exists 1%nat; reflexivity|].
      split; [lia|exact H].
    + cbn [solo] in H. rewrite elapse_then, advance_then in H by discriminate.
      destruct (advance me (Asleep u p) (elapse (Asleep u p) w)) as [s1 w1] eqn:E.
      cbn [fst snd] in H. apply IH in H.
      destruct H as (a' & w2 & fuel' & [m Hm] & Hk & Hr).
      exists a', w2, fuel'. split;
        [exists (S m); cbn [solo]; rewrite E; exact Hm|split; [lia|exact Hr]].
    + cbn [solo] in H. rewrite elapse_then, advance_then in H by discriminate.
      destruct (advance me (Joining t p) (elapse (Joining t p) w)) as [s1 w1] eqn:E.
      cbn [fst snd] in H. apply IH in H.
      destruct H as (a' & w2 & fuel' & [m Hm] & Hk & Hr).
      exists a', w2, fuel'. split;
        [exists (S m); cbn [solo]; rewrite E; exact Hm|split; [lia|exact Hr]].
    + exists a, w, (S n). split; [exists O; reflexivity|].
      split; [lia|exact H].
    + cbn [then_] in H. rewrite solo_crashed in H. discriminate.
Qed.

Lemma oscillate_round_stopped me z d b w :
  stopped (oscillate_round me z d b w) = stopped w.
Proof. unfold oscillate_round, stopped. now rewrite after_sleep_self. Qed.

Lemma oscillate_round_relays me z d b w :
  relays (oscillate_round me z d b w) = <[Z.to_nat z := negb b]> (relays w).
Proof. unfold oscillate_round. now rewrite after_sleep_relays. Qed.

Lemma turns_app tr1 tr2 : turns (tr1 ++ tr2) = (turns tr1 + turns tr2)%nat.
Proof. unfold turns. now rewrite filter_app, length_app. Qed.

Section Unbounded.
Context (me : nat) (z : Z) (period : pyval) (q : Q).
Hypothesis Hperiod : period_is period q.
Hypothesis Hsleep : sleepable q.

Lemma oscillate_blocking_unfolds :
  oscillate (PyInt z) period (PyBool true)
  = SetStop false
      (SetOsc 0
         (While not_stopped (oscillate_body (PyInt z) period) (Ret PyNone))).
Proof.
  unfold oscillate. destruct Hperiod as (Ht & Hq & Hge). rewrite Ht.
  rewrite (period_ok_pass period q) by (repeat split; assumption).
  reflexivity.
Qed.

Lemma not_stopped_returns w : returns me not_stopped w (negb (stopped w)) w.
Proof.
  unfold not_stopped. eapply returns_bind; [apply returns_get_stop|].
  apply returns_ret.
Qed.

Lemma oscillate_loop_never_returns n : ∀ w b r w',
  relay_at w z b → stopped w = false →
  solo n me
    (Ready (While not_stopped (oscillate_body (PyInt z) period) (Ret PyNone)))
    w ≠ (Returned r, w').
Proof.
  induction n as [n IH] using lt_wf_ind. intros w b r w' Hr Hs H.
  destruct n as [|n]; [discriminate|].
  cbn [solo elapse advance step] in H.
  change (Ready (not_stopped ≫= ?g)) with (then_ g (Ready not_stopped)) in H.
  apply solo_then_inv in H. destruct H as (a & w1 & k & Hm & Hk & H).
  destruct (returns_fun me not_stopped w a w1 _ w Hm (not_stopped_returns w))
    as [-> ->].
  rewrite Hs in H. cbn [negb] in H.
  change (Ready (oscillate_body (PyInt z) period ≫= ?g))
    with (then_ g (Ready (oscillate_body (PyInt z) period))) in H.
  apply solo_then_inv in H. destruct H as ([] & w2 & k2 & Hm2 & Hk2 & H).
  destruct (returns_fun me _ w tt w2 tt _ Hm2
              (oscillate_body_returns me z period q Hperiod Hsleep w b Hr))
    as [_ ->].
  apply (IH k2) with (b := negb b) in H; [exact H|lia| |].
  - eapply relay_at_insert; [exact Hr|]. apply oscillate_round_relays.
  - now rewrite oscillate_round_stopped.
Qed.

Lemma oscillate_loop_swings n : ∀ w b,
  relay_at w z b → stopped w = false →
  ∃ fuel,
    solo fuel me
      (Ready (While not_stopped (oscillate_body (PyInt z) period) (Ret PyNone)))
      w
    = (Ready (While not_stopped (oscillate_body (PyInt z) period) (Ret PyNone)),
       after_swings me z q b n w).
Proof.
  induction n as [|n IH]; intros w b Hr Hs.
  - exists O. reflexivity.
  - destruct (not_stopped_returns w) as [m1 Hm1].
    apply (solo_then me
             (λ v : bool,
                if v
                then oscillate_body (PyInt z) period;;
                     While not_stopped (oscillate_body (PyInt z) period)
                       (Ret PyNone)
                else Ret PyNone)) in Hm1.
    destruct Hm1 as [k1 Hk1]. rewrite Hs in Hk1. cbn [negb then_] in Hk1.
    destruct (oscillate_body_returns me z period q Hperiod Hsleep w b Hr) as [m2 Hm2].
    apply (solo_then me
             (λ _ : unit,
                While not_stopped (oscillate_body (PyInt z) period)
                  (Ret PyNone))) in Hm2.
    destruct Hm2 as [k2 Hk2]. cbn [then_] in Hk2.
    destruct (IH (oscillate_round me z q b w) (negb b)) as [k3 Hk3].
    + eapply relay_at_insert; [exact Hr|]. apply oscillate_round_relays.
    + now rewrite oscillate_round_stopped.
    + exists (1 + (k1 + (k2 + k3)))%nat.
      rewrite solo_add. cbn [solo elapse advance step fst snd].
      rewrite solo_add. unfold mbind, prog_mbind in *. rewrite Hk1.
      cbn [fst snd]. rewrite solo_add, Hk2. cbn [fst snd].
      exact Hk3.
Qed.

Lemma after_swings_turns n : ∀ w b,
  turns (trace (after_swings me z q b n w)) = (turns (trace w) + n)%nat.
Proof.
  induction n as [|n IH]; intros w b; cbn [after_swings]; [lia|].
  rewrite IH, oscillate_round_trace, !turns_app. unfold turns. simpl. lia.
Qed.
End Unbounded.

(** X15.  A blocking oscillate that runs alone on the controller, with a
    period of at most 2^32 s, never returns: it resets the flag and then
    toggles without end.  For every number N there is a point of the run at
    which it has sent N turn commands and is back at the head of its loop
    with the flag still False. *)
Theorem oscillate_alone_never_returns me w z b period q :
  relay_at w z b → period_is period q → sleepable q →
  (∀ fuel r w',
     solo fuel me (Ready (oscillate (PyInt z) period (PyBool true))) w
     ≠ (Returned r, w')) ∧
  (∀ N, ∃ fuel w',
     solo fuel me (Ready (oscillate (PyInt z) period (PyBool true))) w
     = (Ready (While not_stopped (oscillate_body (PyInt z) period)
                 (Ret PyNone)), w') ∧
     turns (trace w') = (turns (trace w) + N)%nat ∧ stopped w' = false).
Proof.
  intros Hr Hp Hsl. rewrite (oscillate_blocking_unfolds z period q Hp).
  set (w0 := with_counter 0 (with_stop false w)).
  assert (relay_at w0 z b) as Hr0 by exact Hr.
  assert (stopped w0 = false) as Hs0 by reflexivity.
  split.
  - intros [|[|fuel]] r w'; try discriminate.
    cbn [solo elapse advance step]. fold w0.
    now apply (oscillate_loop_never_returns me z period q Hp Hsl fuel w0 b).
  - intros N.
    destruct (oscillate_loop_swings me z period q Hp Hsl N w0 b Hr0 Hs0)
      as [fuel Hf].
    exists (2 + fuel)%nat, (after_swings me z q b N w0).
    split; [|split].
    + rewrite solo_add. cbn [solo elapse advance step fst snd]. exact Hf.
    + now rewrite after_swings_turns.
    + clear Hf. revert Hs0. generalize w0 b. clear.
      induction N as [|N IH]; intros w b Hs; [exact Hs|].
      cbn [after_swings]. apply IH. now rewrite oscillate_round_stopped.
Qed.

Lemma oscillate_alone_never_returns_witness :
  (∀ fuel r w',
     solo fuel 0 (Ready (oscillate (PyInt 0) (PyFloat (1 # 10)) (PyBool true)))
       bench ≠ (Returned r, w')) ∧
  (∀ N, ∃ fuel w',
     solo fuel 0 (Ready (oscillate (PyInt 0) (PyFloat (1 # 10)) (PyBool true)))
       bench
     = (Ready (While not_stopped
                 (oscillate_body (PyInt 0) (PyFloat (1 # 10))) (Ret PyNone)),
        w') ∧
     turns (trace w') = (turns (trace bench) + N)%nat ∧ stopped w' = false).
Proof.
  apply (oscillate_alone_never_returns 0 bench 0 false (PyFloat (1 # 10))
           (1 # 10)).
  - split; [lia|reflexivity].
  - repeat split.
  - reflexivity.
Defined.

(** ** Stopping from another thread *)

Lemma act_run w t s s' w1 :
  pool w !! t = Some s → advance t s w = (s', w1) →
  act (Run t) w = with_pool (<[t := s']> (pool w1)) w1.
Proof. intros H1 H2. unfold act. now rewrite H1, H2. Qed.

(** X16.  stop_oscillation called by another thread while the loop of
    oscillate sleeps between two rounds ends the loop at its next look at
    the flag: once its sleep is over the loop thread returns None without
    another request, and the relay stays where the last toggle left it. *)
Theorem stop_from_another_thread w a b until z period d :
  a ≠ b →
  pool w !! a
  = Some (Asleep until
            (While not_stopped (oscillate_body (PyInt z) period) (Ret PyNone))) →
  pool w !! b = Some (Ready stop_oscillation) →
  Qle_bool 0 d = true → Qle_bool until (clock w + d) = true →
  let w' := exec ([Run b; Run b; Tick d] ++ repeat (Run a) 4) w in
  pool w' !! a = Some (Returned PyNone) ∧
  pool w' !! b = Some (Returned PyNone) ∧
  stopped w' = true ∧ relays w' = relays w ∧ trace w' = trace w.
Proof.
  intros Hab Ha Hb Hd Hu.
  assert (a < length (pool w))%nat as Hla by (eapply lookup_lt_Some, Ha).
  assert (b < length (pool w))%nat as Hlb by (eapply lookup_lt_Some, Hb).
  set (loop := While not_stopped (oscillate_body (PyInt z) period) (Ret PyNone)).
  fold loop in Ha.
  set (w1 := with_pool (<[b := Ready (Ret PyNone)]> (pool w)) (with_stop true w)).
  assert (act (Run b) w = w1) as E1.
  { apply (act_run w b (Ready stop_oscillation) (Ready (Ret PyNone))
             (with_stop true w)); [exact Hb|reflexivity]. }
  set (w2 := with_pool (<[b := Returned PyNone]> (pool w)) (with_stop true w)).
  assert (act (Run b) w1 = w2) as E2.
  { rewrite (act_run w1 b (Ready (Ret PyNone)) (Returned PyNone) w1).
    - unfold w1, w2. cbn [pool with_pool]. now rewrite list_insert_insert_eq.
    - unfold w1. cbn [pool with_pool]. now apply list_lookup_insert_eq.
    - reflexivity. }
  set (w3 := with_clock (clock w + d) w2).
  assert (act (Tick d) w2 = w3) as E3.
  { unfold act. now rewrite Hd. }
  assert (pool w3 !! a = Some (Asleep until loop)) as Ha3.
  { unfold w3, w2. cbn [pool with_pool with_clock].
    rewrite list_lookup_insert_ne by congruence. exact Ha. }
  set (w4 := with_pool (<[a := Ready loop]> (pool w3)) w3).
  assert (act (Run a) w3 = w4) as E4.
  { apply (act_run w3 a (Asleep until loop) (Ready loop) w3); [exact Ha3|].
    cbn [advance]. change (clock w3) with (clock w + d)%Q. now rewrite Hu. }
  set (w5 := with_pool
               (<[a := Ready (not_stopped ≫= λ v : bool,
                                if v then oscillate_body (PyInt z) period;; loop
                                else Ret PyNone)]> (pool w3)) w3).
  assert (act (Run a) w4 = w5) as E5.
  { rewrite (act_run w4 a (Ready loop)
               (Ready (not_stopped ≫= λ v : bool,
                         if v then oscillate_body (PyInt z) period;; loop
                         else Ret PyNone)) w4).
    - unfold w4, w5. cbn [pool with_pool]. now rewrite list_insert_insert_eq.
    - unfold w4. cbn [pool with_pool]. apply list_lookup_insert_eq.
      unfold w3, w2. cbn [pool with_pool with_clock].
      now rewrite length_insert.
    - reflexivity. }
  set (w6 := with_pool (<[a := Ready (Ret PyNone)]> (pool w3)) w3).
  assert (act (Run a) w5 = w6) as E6.
  { rewrite (act_run w5 a
               (Ready (not_stopped ≫= λ v : bool,
                         if v then oscillate_body (PyInt z) period;; loop
                         else Ret PyNone))
               (Ready (Ret PyNone)) w5).
    - unfold w5, w6. cbn [pool with_pool]. now rewrite list_insert_insert_eq.
    - unfold w5. cbn [pool with_pool]. apply list_lookup_insert_eq.
      unfold w3, w2. cbn [pool with_pool with_clock].
      now rewrite length_insert.
    - reflexivity. }
  set (w7 := with_pool (<[a := Returned PyNone]> (pool w3)) w3).
  assert (act (Run a) w6 = w7) as E7.
  { rewrite (act_run w6 a (Ready (Ret PyNone)) (Returned PyNone) w6).
    - unfold w6, w7. cbn [pool with_pool]. now rewrite list_insert_insert_eq.
    - unfold w6. cbn [pool with_pool]. apply list_lookup_insert_eq.
      unfold w3, w2. cbn [pool with_pool with_clock].
      now rewrite length_insert.
    - reflexivity. }
  cbv zeta. unfold exec. cbn [repeat app fold_left].
  rewrite E1, E2, E3, E4, E5, E6, E7.
  unfold w7, w3, w2. cbn [pool with_pool with_clock].
  repeat split.
  - apply list_lookup_insert_eq. now rewrite length_insert.
  - rewrite list_lookup_insert_ne by congruence.
    now apply list_lookup_insert_eq.
Qed.

Lemma stop_from_another_thread_witness :
  let w := with_pool
             [Asleep (1 # 10)
                (While not_stopped
                   (oscillate_body (PyInt 0) (PyFloat (1 # 10))) (Ret PyNone));
              Ready stop_oscillation] (with_stop false bench) in
  let w' := exec ([Run 1; Run 1; Tick (1 # 10)] ++ repeat (Run 0) 4) w in
  pool w' !! 0%nat = Some (Returned PyNone) ∧
  pool w' !! 1%nat = Some (Returned PyNone) ∧
  stopped w' = true ∧ relays w' = relays w ∧ trace w' = trace w.
Proof.
  apply (stop_from_another_thread
           (with_pool
              [Asleep (1 # 10)
                 (While not_stopped
                    (oscillate_body (PyInt 0) (PyFloat (1 # 10))) (Ret PyNone));
               Ready stop_oscillation] (with_stop false bench))
           0%nat 1%nat (1 # 10) 0 (PyFloat (1 # 10)) (1 # 10)).
  - discriminate.
  - reflexivity.
  - reflexivity.
  - reflexivity.
  - reflexivity.
Defined.

(** ** A period time.sleep refuses *)

Lemma raises_step {R : Type} me (p p' : prog R) w w1 e w' :
  step me p w = (Ready p', w1) → raises me p' w1 e w' → raises me p w e w'.
Proof.
  intros Hs [n Hn]. exists (S n). simpl. rewrite Hs. exact Hn.
Qed.

Lemma raises_while_body {R : Type} me c b (k : prog R) w w1 e w2 :
  returns me c w true w1 → raises me b w1 e w2 →
  raises me (While c b k) w e w2.
Proof.
  intros Hc Hb. eapply raises_step; [reflexivity|].
  eapply raises_bind_r; [exact Hc|]. simpl. apply raises_bind_l, Hb.
Qed.

Lemma sleep_overflows period q :
  period_is period q → oversized q → sleep period = Raise OverflowError.
Proof.
  intros (_ & Hq & _) Hbig. unfold sleep, num. rewrite Hq. simpl.
  assert (Qlt_bool sleep_max q = true) as ->; [|reflexivity].
  unfold Qlt_bool. apply negb_true_iff, not_true_iff_false.
  rewrite Qle_bool_iff. apply Qle_bool_iff in Hbig. intros Hle.
  assert ((9223372037 # 1) <= sleep_max)%Q as H by (eapply Qle_trans; eassumption).
  vm_compute in H. apply H. reflexivity.
Qed.

(** X17.  A period of 9223372037 s or more passes the parameter checks of
    oscillate_cycles and fails in time.sleep.  The blocking call raises
    OverflowError in its first sleep: after the command that brings the
    relay to the start state when that was needed, and otherwise after the
    first toggle of the loop, whose half cycle is then not counted.  The
    stop flag is left False and no thread has been started. *)
Theorem oscillate_cycles_oversized_period me w z b0 period q c start final :
  relay_at w z b0 → period_is period q → oversized q → 0 < c →
  ∃ w',
    raises me
      (oscillate_cycles (PyInt z) period (PyInt c) (PyBool true)
         (PyBool start) (PyBool final)) w OverflowError w' ∧
    trace w' = trace w ++
      (if Bool.eqb b0 start
       then (me, Requested GetStatus) :: toggled me z start
       else [(me, Requested GetStatus);
             (me, Requested (GetRelay (PyInt z) (turn start)))]) ∧
    counter w' = (if Bool.eqb b0 start then 0%Q else counter w) ∧
    stopped w' = false ∧ pool w' = pool w.
Proof.
  intros Hr Hp Hbig Hc.
  pose proof (sleep_overflows period q Hp Hbig) as Hsleep.
  destruct (Bool.eqb b0 start) eqn:Heq.
  - apply Bool.eqb_prop in Heq. subst b0.
    set (w2 := with_counter 0 (asked me (with_stop false w))).
    exists (turned me z (negb start) (asked me w2)).
    split; [|repeat split].
    + unfold oscillate_cycles.
      eapply raises_bind_r; [apply returns_assert|].
      destruct Hp as (Ht & Hq & Hge). rewrite Ht.
      eapply raises_bind_r; [apply returns_assert|].
      rewrite (period_ok_pass period q) by (repeat split; assumption).
      eapply raises_bind_r; [apply returns_ret|].
      eapply raises_bind_r; [apply returns_assert|].
      rewrite positive_pass by assumption.
      eapply raises_bind_r; [apply returns_ret|].
      eapply raises_bind_r; [apply returns_assert|].
      eapply raises_bind_r; [apply returns_assert|].
      eapply raises_bind_r; [apply returns_assert|].
      cbn [truthy].
      eapply raises_bind_r; [apply returns_set_stop|].
      eapply raises_bind_r.
      { apply (enforce_nothing_returns me z (with_stop false w) start), Hr. }
      eapply raises_bind_r; [apply returns_set_osc|].
      eapply raises_while_body.
      * assert (Qlt_bool (counter w2) (inject_Z c) = true) as <-.
        { change (counter w2) with 0%Q. apply negb_true_iff, not_true_iff_false.
          rewrite Qle_bool_iff. change 0%Q with (inject_Z 0).
          rewrite <- Zle_Qle. lia. }
        now apply cycles_cond_returns.
      * unfold cycles_body.
        eapply raises_bind_r; [apply (toggle_returns me z w2 start), Hr|].
        rewrite Hsleep. apply raises_bind_l, raises_raise.
    + cbn [trace turned record with_relays asked w2 with_counter with_stop].
      unfold toggled. rewrite <- !app_assoc. reflexivity.
  - exists (turned me z start (asked me (with_stop false w))).
    split; [|repeat split].
    + unfold oscillate_cycles.
      eapply raises_bind_r; [apply returns_assert|].
      destruct Hp as (Ht & Hq & Hge). rewrite Ht.
      eapply raises_bind_r; [apply returns_assert|].
      rewrite (period_ok_pass period q) by (repeat split; assumption).
      eapply raises_bind_r; [apply returns_ret|].
      eapply raises_bind_r; [apply returns_assert|].
      rewrite positive_pass by assumption.
      eapply raises_bind_r; [apply returns_ret|].
      eapply raises_bind_r; [apply returns_assert|].
      eapply raises_bind_r; [apply returns_assert|].
      eapply raises_bind_r; [apply returns_assert|].
      cbn [truthy].
      eapply raises_bind_r; [apply returns_set_stop|].
      apply raises_bind_l. unfold enforce.
      eapply raises_bind_r.
      { apply (get_relay_state_returns me z (with_stop false w) b0), Hr. }
      rewrite py_ne_states, Heq. cbn [negb].
      eapply raises_bind_r.
      { apply (power_returns me z (asked me (with_stop false w)) b0 start), Hr. }
      rewrite Hsleep. apply raises_raise.
    + cbn [trace turned record with_relays asked with_stop].
      rewrite <- !app_assoc. reflexivity.
Qed.

Lemma oscillate_cycles_oversized_period_witness :
  ∃ w',
    raises 0
      (oscillate_cycles (PyInt 0) (PyFloat (10000000000 # 1)) (PyInt 1)
         (PyBool true) (PyBool false) (PyBool false)) bench OverflowError w' ∧
    trace w' = trace bench ++
      (if Bool.eqb false false
       then (0%nat, Requested GetStatus) :: toggled 0 0 false
       else [(0%nat, Requested GetStatus);
             (0%nat, Requested (GetRelay (PyInt 0) (turn false)))]) ∧
    counter w' = (if Bool.eqb false false then 0%Q else counter bench) ∧
    stopped w' = false ∧ pool w' = pool bench.
Proof.
  apply (oscillate_cycles_oversized_period 0 bench 0 false
           (PyFloat (10000000000 # 1)) (10000000000 # 1) 1 false false).
  - split; [lia|reflexivity].
  - repeat split.
  - reflexivity.
  - lia.
Defined.

(** X18.  With a period of 9223372037 s or more and a relay that is not in
    the start state, oscillate_timeout raises OverflowError in its settling
    sleep, after the status request and the command to the start state: no
    thread has been started and the stop flag is as it was. *)
Theorem oscillate_timeout_oversized_period
    me w z b0 period q t blk start final :
  relay_at w z b0 → b0 ≠ start → period_is period q → oversized q → 0 < t →
  ∃ w',
    raises me
      (oscillate_timeout (PyInt z) period (PyInt t) (PyBool blk)
         (PyBool start) (PyBool final)) w OverflowError w' ∧
    trace w' = trace w ++
      [(me, Requested GetStatus);
       (me, Requested (GetRelay (PyInt z) (turn start)))] ∧
    pool w' = pool w ∧ stopped w' = stopped w.
Proof.
  intros Hr Hne Hp Hbig Ht.
  pose proof (sleep_overflows period q Hp Hbig) as Hsleep.
  assert (Bool.eqb b0 start = false) as Heq.
  { destruct b0, start; try reflexivity; now destruct Hne. }
  exists (turned me z start (asked me w)). split; [|repeat split].
  - unfold oscillate_timeout.
    eapply raises_bind_r; [apply returns_assert|].
    destruct Hp as (Hty & Hq & Hge). rewrite Hty.
    eapply raises_bind_r; [apply returns_assert|].
    rewrite (period_ok_pass period q) by (repeat split; assumption).
    eapply raises_bind_r; [apply returns_ret|].
    eapply raises_bind_r; [apply returns_assert|].
    rewrite positive_pass by assumption.
    eapply raises_bind_r; [apply returns_ret|].
    eapply raises_bind_r; [apply returns_assert|].
    eapply raises_bind_r; [apply returns_assert|].
    apply raises_bind_l. unfold enforce.
    eapply raises_bind_r; [apply (get_relay_state_returns me z w b0), Hr|].
    rewrite py_ne_states, Heq. cbn [negb].
    eapply raises_bind_r.
    { apply (power_returns me z (asked me w) b0 start), Hr. }
    rewrite Hsleep. apply raises_raise.
  - cbn [trace turned record with_relays asked].
    rewrite <- !app_assoc. reflexivity.
Qed.

Lemma oscillate_timeout_oversized_period_witness :
  ∃ w',
    raises 0
      (oscillate_timeout (PyInt 0) (PyFloat (10000000000 # 1)) (PyInt 1)
         (PyBool false) (PyBool true) (PyBool false)) bench OverflowError w' ∧
    trace w' = trace bench ++
      [(0%nat, Requested GetStatus);
       (0%nat, Requested (GetRelay (PyInt 0) (turn true)))] ∧
    pool w' = pool bench ∧ stopped w' = stopped bench.
Proof.
  apply (oscillate_timeout_oversized_period 0 bench 0 false
           (PyFloat (10000000000 # 1)) (10000000000 # 1) 1 false true false).
  - split; [lia|reflexivity].
  - discriminate.
  - repeat split.
  - reflexivity.
  - lia.
Defined.
